(** * Drizzle notes demo: the relational data-access layer

    A shallow embedding of the server side of the repository:

    - [shared/schema.ts]      the two relations [users] and [notes];
    - [server/db/index.ts]    the connection [db] and [prepareDb];
    - [server/db] CRUD file   [createUser] ... [deleteUserNotes] (module [Crud]);
    - [server/db] query file  [searchNotes], [getPaginatedNotes],
                              [getNotesWithUsers], [getUserWithNotes]
                              (module [Queries]);
    - [server/storage.ts]     the class [DrizzleStorage] over a connection of
                              its own (module [DrizzleStorage]).

    Every function of the program is one or two SQL statements built with the
    ORM and run on an in-memory SQLite database.  The statements are given the
    meaning SQLite gives them under the table definitions of [prepareDb]; an
    [async] function is a computation over the database it is bound to that
    either resolves with a value or rejects with the engine's error. *)

From Stdlib Require Import ZArith List String Ascii Bool Lia Permutation Sorted.
Import ListNotations.
Local Open Scope Z_scope.

(* ------------------------------------------------------------------ *)
(** ** shared/schema.ts *)

(** [typeof users.$inferSelect] *)
Module User.
Record t : Type := mk { id : Z; username : string; password : string }.
End User.

(** [z.infer<typeof insertUserSchema>]: [pick({username, password})] *)
Module InsertUser.
Record t : Type := mk { username : string; password : string }.
End InsertUser.

(** [Partial<Omit<InsertUser, 'id'>>]: a field that is absent (or
    [undefined]) is [None]. *)
Module UserPatch.
Record t : Type := mk { username : option string; password : option string }.
End UserPatch.

(** [typeof notes.$inferSelect].  [createdAt] is the value of the column
    [created_at]: the ORM's [mode: 'timestamp'] stores
    [Math.floor(date.getTime() / 1000)] and hands back
    [new Date(created_at * 1000)], so a row's [Date] and its stored integer
    determine each other and are ordered alike. *)
Module Note.
Record t : Type := mk {
  id : Z;
  title : string;
  content : string;
  isImportant : bool;
  userId : Z;
  createdAt : Z
}.
End Note.

(** [z.infer<typeof insertNoteSchema>]: [isImportant] has a default and is
    optional. *)
Module InsertNote.
Record t : Type := mk {
  title : string;
  content : string;
  isImportant : option bool;
  userId : Z
}.
End InsertNote.

(** [Partial<Omit<InsertNote, 'id'>>] *)
Module NotePatch.
Record t : Type := mk {
  title : option string;
  content : option string;
  isImportant : option bool;
  userId : option Z
}.
End NotePatch.

(* ------------------------------------------------------------------ *)
(** ** The database behind a connection *)

(** One [new Database(':memory:')] after the [CREATE TABLE IF NOT EXISTS]
    statements: both tables in rowid order, the two counters of
    [sqlite_sequence] kept for the [AUTOINCREMENT] keys, and the
    connection's last insert rowid (reported by [run()]). *)
Record Database : Type := mkDatabase {
  users : list User.t;
  notes : list Note.t;
  users_seq : Z;
  notes_seq : Z;
  lastInsertRowid : Z
}.

Definition empty_database : Database :=
  {| users := []; notes := []; users_seq := 0; notes_seq := 0;
     lastInsertRowid := 0 |}.

(** What a rejected promise carries.  Nothing in the data-access layer
    catches or wraps an error, so the caller receives the driver's
    [SqliteError] (its [code] and [message]) or the ORM's own [Error]. *)
Inductive SqliteCode : Type :=
| SQLITE_CONSTRAINT_UNIQUE
| SQLITE_CONSTRAINT_FOREIGNKEY
| SQLITE_ERROR.

Inductive Error : Type :=
| SqliteError (code : SqliteCode) (message : string)
| DrizzleError (message : string).

Definition unique_users_username : Error :=
  SqliteError SQLITE_CONSTRAINT_UNIQUE "UNIQUE constraint failed: users.username".

Definition foreign_key_failed : Error :=
  SqliteError SQLITE_CONSTRAINT_FOREIGNKEY "FOREIGN KEY constraint failed".

Definition no_values_to_set : Error := DrizzleError "No values to set".

(** The engine refuses a [LIKE] whose pattern is longer than
    [SQLITE_MAX_LIKE_PATTERN_LENGTH] bytes. *)
Definition like_pattern_too_complex : Error :=
  SqliteError SQLITE_ERROR "LIKE or GLOB pattern too complex".

(** The engine refuses [OFFSET] in a statement that has no [LIMIT]; the
    message quotes the word. *)
Definition syntax_error_near_offset : Error :=
  SqliteError SQLITE_ERROR
    ("near " ++ String "034" ("offset" ++ String "034" ": syntax error")).

(** The own properties of the error object the caller catches, by name:
    the driver's error has [name], [code] and [message], the ORM's has
    [name] and [message]. *)
Definition code_name (code : SqliteCode) : string :=
  match code with
  | SQLITE_CONSTRAINT_UNIQUE => "SQLITE_CONSTRAINT_UNIQUE"
  | SQLITE_CONSTRAINT_FOREIGNKEY => "SQLITE_CONSTRAINT_FOREIGNKEY"
  | SQLITE_ERROR => "SQLITE_ERROR"
  end.

Definition properties (e : Error) : list (string * string) :=
  match e with
  | SqliteError code message =>
      [("name", "SqliteError"); ("code", code_name code);
       ("message", message)]%string
  | DrizzleError message => [("name", "Error"); ("message", message)]%string
  end.

(** [error[key]], [None] for [undefined]. *)
Definition property (key : string) (e : Error) : option string :=
  match find (fun kv => String.eqb (fst kv) key) (properties e) with
  | Some kv => Some (snd kv)
  | None => None
  end.

(** The settled state of a promise. *)
Inductive Outcome (A : Type) : Type :=
| Resolved (value : A)
| Rejected (reason : Error).
Arguments Resolved {A} value.
Arguments Rejected {A} reason.

(** An [async] function body over the connection it closes over. *)
Definition Async (A : Type) : Type := Database -> Outcome A * Database.

Definition ret {A} (a : A) : Async A := fun d => (Resolved a, d).

Definition bind {A B} (m : Async A) (k : A -> Async B) : Async B :=
  fun d =>
    match m d with
    | (Resolved a, d') => k a d'
    | (Rejected e, d') => (Rejected e, d')
    end.

Notation "x <- m ;; k" := (bind m (fun x => k))
  (at level 61, m at next level, right associativity).

(** [RunResult] of the driver, what awaiting a statement without
    [.returning()] yields. *)
Record RunResult : Type := mkRunResult { changes : Z; run_lastInsertRowid : Z }.

(** The referential action of a foreign key. *)
Inductive ReferentialAction : Type := CASCADE | NO_ACTION.

(** [FOREIGN KEY (user_id) REFERENCES users(id) ON DELETE CASCADE] *)
Definition notes_user_id_on_delete : ReferentialAction := CASCADE.

(* ------------------------------------------------------------------ *)
(** ** Statements *)

Section Statements.

(** [AUTOINCREMENT]: one more than the largest rowid the table has ever
    held. *)
Definition next_rowid (seq : Z) (ids : list Z) : Z :=
  Z.max seq (fold_right Z.max 0 ids) + 1.

Definition has_user (uid : Z) (d : Database) : bool :=
  existsb (fun u => User.id u =? uid) (users d).

Definition has_username (name : string) (us : list User.t) : bool :=
  existsb (fun u => String.eqb (User.username u) name) us.

(** [db.select().from(users).where(p)] *)
Definition select_users (p : User.t -> bool) : Async (list User.t) :=
  fun d => (Resolved (filter p (users d)), d).

(** [db.select().from(notes).where(p)] *)
Definition select_notes (p : Note.t -> bool) : Async (list Note.t) :=
  fun d => (Resolved (filter p (notes d)), d).

(** [db.insert(users).values(v).returning()] *)
Definition insert_users (v : InsertUser.t) : Async (list User.t) :=
  fun d =>
    if has_username (InsertUser.username v) (users d)
    then (Rejected unique_users_username, d)
    else
      let row := {| User.id := next_rowid (users_seq d) (map User.id (users d));
                    User.username := InsertUser.username v;
                    User.password := InsertUser.password v |} in
      (Resolved [row],
       {| users := users d ++ [row];
          notes := notes d;
          users_seq := User.id row;
          notes_seq := notes_seq d;
          lastInsertRowid := User.id row |}).

Definition patch_user (data : UserPatch.t) (u : User.t) : User.t :=
  {| User.id := User.id u;
     User.username := match UserPatch.username data with
                      | Some s => s | None => User.username u end;
     User.password := match UserPatch.password data with
                      | Some s => s | None => User.password u end |}.

Definition user_patch_is_empty (data : UserPatch.t) : bool :=
  match UserPatch.username data, UserPatch.password data with
  | None, None => true
  | _, _ => false
  end.

(** [db.update(users).set(data).where(eq(users.id, id)).returning()] *)
Definition update_users (id : Z) (data : UserPatch.t) : Async (list User.t) :=
  fun d =>
    if user_patch_is_empty data then (Rejected no_values_to_set, d)
    else
      let hit := fun u => User.id u =? id in
      let clash :=
        match UserPatch.username data with
        | Some s =>
            existsb hit (users d)
            && has_username s (filter (fun u => negb (hit u)) (users d))
        | None => false
        end in
      if clash then (Rejected unique_users_username, d)
      else
        let step := fun u => if hit u then patch_user data u else u in
        (Resolved (map (patch_user data) (filter hit (users d))),
         {| users := map step (users d);
            notes := notes d;
            users_seq := users_seq d;
            notes_seq := notes_seq d;
            lastInsertRowid := lastInsertRowid d |}).

(** [db.delete(users).where(eq(users.id, id)).returning()], with the
    action the foreign key of [notes] declares for its children. *)
Definition delete_users (action : ReferentialAction) (id : Z)
  : Async (list User.t) :=
  fun d =>
    let hit := fun u => User.id u =? id in
    let gone := filter hit (users d) in
    let child := fun n => existsb (fun u => User.id u =? Note.userId n) gone in
    match action with
    | CASCADE =>
        (Resolved gone,
         {| users := filter (fun u => negb (hit u)) (users d);
            notes := filter (fun n => negb (child n)) (notes d);
            users_seq := users_seq d;
            notes_seq := notes_seq d;
            lastInsertRowid := lastInsertRowid d |})
    | NO_ACTION =>
        if existsb child (notes d) then (Rejected foreign_key_failed, d)
        else
          (Resolved gone,
           {| users := filter (fun u => negb (hit u)) (users d);
              notes := notes d;
              users_seq := users_seq d;
              notes_seq := notes_seq d;
              lastInsertRowid := lastInsertRowid d |})
    end.

(** [db.insert(notes).values({...note, createdAt}).returning()];
    [createdAt] is the [Date] in milliseconds. *)
Definition insert_notes (v : InsertNote.t) (createdAt : Z)
  : Async (list Note.t) :=
  fun d =>
    if has_user (InsertNote.userId v) d
    then
      let row := {| Note.id := next_rowid (notes_seq d) (map Note.id (notes d));
                    Note.title := InsertNote.title v;
                    Note.content := InsertNote.content v;
                    Note.isImportant := match InsertNote.isImportant v with
                                        | Some b => b | None => false end;
                    Note.userId := InsertNote.userId v;
                    Note.createdAt := createdAt / 1000 |} in
      (Resolved [row],
       {| users := users d;
          notes := notes d ++ [row];
          users_seq := users_seq d;
          notes_seq := Note.id row;
          lastInsertRowid := Note.id row |})
    else (Rejected foreign_key_failed, d).

Definition patch_note (data : NotePatch.t) (n : Note.t) : Note.t :=
  {| Note.id := Note.id n;
     Note.title := match NotePatch.title data with
                   | Some s => s | None => Note.title n end;
     Note.content := match NotePatch.content data with
                     | Some s => s | None => Note.content n end;
     Note.isImportant := match NotePatch.isImportant data with
                         | Some b => b | None => Note.isImportant n end;
     Note.userId := match NotePatch.userId data with
                    | Some i => i | None => Note.userId n end;
     Note.createdAt := Note.createdAt n |}.

Definition note_patch_is_empty (data : NotePatch.t) : bool :=
  match NotePatch.title data, NotePatch.content data,
        NotePatch.isImportant data, NotePatch.userId data with
  | None, None, None, None => true
  | _, _, _, _ => false
  end.

(** [db.update(notes).set(data).where(eq(notes.id, id)).returning()] *)
Definition update_notes (id : Z) (data : NotePatch.t) : Async (list Note.t) :=
  fun d =>
    if note_patch_is_empty data then (Rejected no_values_to_set, d)
    else
      let hit := fun n => Note.id n =? id in
      let orphan :=
        match NotePatch.userId data with
        | Some uid => existsb hit (notes d) && negb (has_user uid d)
        | None => false
        end in
      if orphan then (Rejected foreign_key_failed, d)
      else
        let step := fun n => if hit n then patch_note data n else n in
        (Resolved (map (patch_note data) (filter hit (notes d))),
         {| users := users d;
            notes := map step (notes d);
            users_seq := users_seq d;
            notes_seq := notes_seq d;
            lastInsertRowid := lastInsertRowid d |}).

Definition without_notes (p : Note.t -> bool) (d : Database) : Database :=
  {| users := users d;
     notes := filter (fun n => negb (p n)) (notes d);
     users_seq := users_seq d;
     notes_seq := notes_seq d;
     lastInsertRowid := lastInsertRowid d |}.

(** [db.delete(notes).where(p).returning()] *)
Definition delete_notes_returning (p : Note.t -> bool) : Async (list Note.t) :=
  fun d => (Resolved (filter p (notes d)), without_notes p d).

(** [db.delete(notes).where(p)], awaited as it is: the driver's [run()] *)
Definition delete_notes_run (p : Note.t -> bool) : Async RunResult :=
  fun d =>
    (Resolved {| changes := Z.of_nat (List.length (filter p (notes d)));
                 run_lastInsertRowid := lastInsertRowid d |},
     without_notes p d).

End Statements.

(* ------------------------------------------------------------------ *)
(** ** The CRUD functions of [server/db] *)

Module Crud.

(** [result[0]]: the first row, [undefined] when there is none. *)
Definition first {A} (result : list A) : option A := hd_error result.

Definition createUser (user : InsertUser.t) : Async (option User.t) :=
  result <- insert_users user ;;
  ret (first result).

(** [result[0] || null] *)
Definition getUserById (id : Z) : Async (option User.t) :=
  result <- select_users (fun u => User.id u =? id) ;;
  ret (first result).

Definition getUserByUsername (username : string) : Async (option User.t) :=
  result <- select_users (fun u => String.eqb (User.username u) username) ;;
  ret (first result).

Definition getAllUsers : Async (list User.t) :=
  select_users (fun _ => true).

Definition updateUser (id : Z) (data : UserPatch.t) : Async (option User.t) :=
  result <- update_users id data ;;
  ret (first result).

Definition deleteUser (id : Z) : Async (option User.t) :=
  result <- delete_users notes_user_id_on_delete id ;;
  ret (first result).

(** [now] is the [new Date()] of the call, in milliseconds. *)
Definition createNote (note : InsertNote.t) (now : Z) : Async (option Note.t) :=
  result <- insert_notes note now ;;
  ret (first result).

Definition getNoteById (id : Z) : Async (option Note.t) :=
  result <- select_notes (fun n => Note.id n =? id) ;;
  ret (first result).

Definition getAllNotes : Async (list Note.t) :=
  select_notes (fun _ => true).

Definition getNotesByUserId (userId : Z) : Async (list Note.t) :=
  select_notes (fun n => Note.userId n =? userId).

Definition updateNote (id : Z) (data : NotePatch.t) : Async (option Note.t) :=
  result <- update_notes id data ;;
  ret (first result).

Definition deleteNote (id : Z) : Async (option Note.t) :=
  result <- delete_notes_returning (fun n => Note.id n =? id) ;;
  ret (first result).

Definition deleteUserNotes (userId : Z) : Async RunResult :=
  delete_notes_run (fun n => Note.userId n =? userId).

End Crud.

(* ------------------------------------------------------------------ *)
(** ** What the query helpers ask of the engine *)

Section QueryEngine.

(** SQLite folds the case of the 26 ASCII letters when it evaluates
    [LIKE]. *)
Definition to_lower (c : ascii) : ascii :=
  let n := N_of_ascii c in
  if ((65 <=? n) && (n <=? 90))%N then ascii_of_N (n + 32) else c.

Definition same_letter (c d : ascii) : bool :=
  Ascii.eqb (to_lower c) (to_lower d).

(** The engine's comparison of a pattern with a string, no [ESCAPE]: [%]
    stands for any run of characters, [_] for any one character, everything
    else for itself up to ASCII case.  A character is an [ascii] here, so
    the texts covered are those whose characters fit one. *)
Fixpoint patternCompare (pattern : string) : string -> bool :=
  match pattern with
  | EmptyString =>
      fun text => match text with EmptyString => true | String _ _ => false end
  | String c rest =>
      if Ascii.eqb c "%" then
        fix any (text : string) : bool :=
          patternCompare rest text
          || match text with
             | EmptyString => false
             | String _ t => any t
             end
      else if Ascii.eqb c "_" then
        fun text =>
          match text with
          | EmptyString => false
          | String _ t => patternCompare rest t
          end
      else
        fun text =>
          match text with
          | EmptyString => false
          | String d t => same_letter c d && patternCompare rest t
          end
  end.

(** The engine reads both operands of [LIKE] as C strings: what comes
    before the first NUL character. *)
Fixpoint c_string (s : string) : string :=
  match s with
  | EmptyString => EmptyString
  | String c s' =>
      if Ascii.eqb c "000" then EmptyString else String c (c_string s')
  end.

(** The length in bytes of the UTF-8 form of [s]: one byte for a character
    below 128, two for the others that fit an [ascii]. *)
Fixpoint utf8_length (s : string) : Z :=
  match s with
  | EmptyString => 0
  | String c s' => (if (N_of_ascii c <? 128)%N then 1 else 2) + utf8_length s'
  end.

Definition SQLITE_MAX_LIKE_PATTERN_LENGTH : Z := 50000.

(** [text LIKE pattern] as the engine evaluates it on one row: a pattern of
    more bytes than the limit is an error, otherwise the two C strings are
    compared. *)
Definition like (pattern text : string) : Outcome bool :=
  if SQLITE_MAX_LIKE_PATTERN_LENGTH <? utf8_length pattern
  then Rejected like_pattern_too_complex
  else Resolved (patternCompare (c_string pattern) (c_string text)).

(** [WHERE p] over the rows in scan order; an error on a row ends the
    statement. *)
Fixpoint where_rows {A} (p : A -> Outcome bool) (rows : list A)
  : Outcome (list A) :=
  match rows with
  | [] => Resolved []
  | r :: rest =>
      match p r with
      | Rejected e => Rejected e
      | Resolved keep =>
          match where_rows p rest with
          | Rejected e => Rejected e
          | Resolved kept => Resolved (if keep then r :: kept else kept)
          end
      end
  end.

(** [ORDER BY key DESC] over the rows in scan order; rows with equal keys
    stay in scan order. *)
Fixpoint insert_desc {A} (key : A -> Z) (x : A) (rows : list A) : list A :=
  match rows with
  | [] => [x]
  | y :: rest =>
      if key y <=? key x then x :: rows else y :: insert_desc key x rest
  end.

Definition order_by_desc {A} (key : A -> Z) (rows : list A) : list A :=
  fold_right (insert_desc key) [] rows.

(** What [.limit(limit).offset(offset)] comes to.  The query builder
    writes [LIMIT] only for a limit that is not negative and [OFFSET] only
    for an offset that is not 0 (releases before 0.32.1 wrote [LIMIT] for a
    limit that is not 0; the two agree on every positive limit).  The
    engine takes a negative [OFFSET] for 0 and refuses [OFFSET] without
    [LIMIT]. *)
Definition limit_offset {A} (limit offset : Z) (rows : list A)
  : Outcome (list A) :=
  let writes_limit := 0 <=? limit in
  let writes_offset := negb (offset =? 0) in
  match writes_limit, writes_offset with
  | true, true =>
      Resolved (firstn (Z.to_nat limit) (skipn (Z.to_nat offset) rows))
  | true, false => Resolved (firstn (Z.to_nat limit) rows)
  | false, false => Resolved rows
  | false, true => Rejected syntax_error_near_offset
  end.

(** [db.select().from(notes).where(p).orderBy(desc(notes.createdAt))]; the
    statement without [.where] is the one whose [p] holds of every row. *)
Definition select_notes_newest_first (p : Note.t -> Outcome bool)
  : Async (list Note.t) :=
  fun d =>
    match where_rows p (notes d) with
    | Resolved rows => (Resolved (order_by_desc Note.createdAt rows), d)
    | Rejected e => (Rejected e, d)
    end.

(** [db.select().from(notes).limit(limit).offset(offset)
      .orderBy(desc(notes.createdAt))] *)
Definition select_notes_page (limit offset : Z) : Async (list Note.t) :=
  fun d =>
    (limit_offset limit offset (order_by_desc Note.createdAt (notes d)), d).

(** [db.select({ count }).from(notes)] with [count] the SQL count of all
    rows: always one row, of which the caller reads [count]. *)
Definition select_count_notes : Async Z :=
  fun d => (Resolved (Z.of_nat (List.length (notes d))), d).

(** [notes INNER JOIN users ON notes.user_id = users.id] *)
Definition inner_join (ns : list Note.t) (us : list User.t)
  : list (Note.t * User.t) :=
  flat_map
    (fun n => map (fun u => (n, u))
                  (filter (fun u => Note.userId n =? User.id u) us))
    ns.

End QueryEngine.

(** A JavaScript number as far as [Math.ceil(total / limit)] can produce
    one from two integers. *)
Inductive number : Type :=
| Int (z : Z)
| Infinity
| NaN.

(** [Math.ceil(total / limit)] for a count [total] (which is never
    negative) and an integer [limit]. *)
Definition math_ceil_div (total limit : Z) : number :=
  if limit =? 0 then (if total =? 0 then NaN else Infinity)
  else Int (- ((- total) / limit)).

(* ------------------------------------------------------------------ *)
(** ** The query helpers of [server/db] *)

Module Queries.

(** The conditions [searchNotes] collects. *)
Inductive Condition : Type :=
| like_title (pattern : string)       (* like(notes.title, pattern) *)
| eq_isImportant (b : bool).          (* eq(notes.isImportant, b) *)

Definition holds (n : Note.t) (c : Condition) : Outcome bool :=
  match c with
  | like_title pattern => like pattern (Note.title n)
  | eq_isImportant b => Resolved (Bool.eqb (Note.isImportant n) b)
  end.

(** [and(...conditions)]: the engine tests the terms of the conjunction on
    a row in the order they are written and leaves the row at the first
    that fails. *)
Fixpoint and_ (conditions : list Condition) (n : Note.t) : Outcome bool :=
  match conditions with
  | [] => Resolved true
  | c :: rest =>
      match holds n c with
      | Rejected e => Rejected e
      | Resolved false => Resolved false
      | Resolved true => and_ rest n
      end
  end.

(** A string is truthy when it is not empty. *)
Definition truthy (s : string) : bool :=
  match s with EmptyString => false | String _ _ => true end.

(** An omitted [importantOnly] is [false]. *)
Definition searchNotes (titleQuery : string) (importantOnly : bool)
  : Async (list Note.t) :=
  let conditions := [] in
  let conditions :=
    if truthy titleQuery
    then conditions ++ [like_title ("%" ++ titleQuery ++ "%")]
    else conditions in
  let conditions :=
    if importantOnly then conditions ++ [eq_isImportant true]
    else conditions in
  if (0 <? List.length conditions)%nat
  then select_notes_newest_first (and_ conditions)
  else select_notes_newest_first (fun _ => Resolved true).

Record Pagination : Type := mkPagination {
  page : Z;
  limit : Z;
  total : Z;
  pages : number
}.

Record PaginatedNotes : Type := mkPaginatedNotes {
  data : list Note.t;
  pagination : Pagination
}.

(** An omitted [page] is 1 and an omitted [limit] is 10. *)
Definition getPaginatedNotes (page limit : Z) : Async PaginatedNotes :=
  let offset := (page - 1) * limit in
  paginatedNotes <- select_notes_page limit offset ;;
  countResult <- select_count_notes ;;
  let total := countResult in
  ret {| data := paginatedNotes;
         pagination := {| page := page;
                          limit := limit;
                          total := total;
                          pages := math_ceil_div total limit |} |}.

(** The two halves of a joined row, as the selection lists them. *)
Record NoteFields : Type := mkNoteFields {
  note_id : Z;
  note_title : string;
  note_content : string;
  note_isImportant : bool;
  note_createdAt : Z
}.

Record UserFields : Type := mkUserFields {
  user_id : Z;
  user_username : string
}.

Record NoteWithUser : Type := mkNoteWithUser {
  note : NoteFields;
  user : UserFields
}.

Definition selection (row : Note.t * User.t) : NoteWithUser :=
  let (n, u) := row in
  {| note := {| note_id := Note.id n;
                note_title := Note.title n;
                note_content := Note.content n;
                note_isImportant := Note.isImportant n;
                note_createdAt := Note.createdAt n |};
     user := {| user_id := User.id u;
                user_username := User.username u |} |}.

Definition getNotesWithUsers : Async (list NoteWithUser) :=
  fun d =>
    (Resolved
       (map selection
            (order_by_desc (fun row => Note.createdAt (fst row))
                           (inner_join (notes d) (users d)))),
     d).

Record Stats : Type := mkStats { totalNotes : Z; importantNotes : Z }.

Record UserWithNotes : Type := mkUserWithNotes {
  uwn_user : User.t;
  uwn_notes : list Note.t;
  stats : Stats
}.

(** [null] is [None]. *)
Definition getUserWithNotes (userId : Z) : Async (option UserWithNotes) :=
  user <- select_users (fun u => User.id u =? userId) ;;
  match Crud.first user with
  | None => ret None
  | Some user0 =>
      userNotes <- select_notes (fun n => Note.userId n =? userId) ;;
      let importantNotesCount :=
        Z.of_nat (List.length (filter Note.isImportant userNotes)) in
      ret (Some {| uwn_user := user0;
                   uwn_notes := userNotes;
                   stats := {| totalNotes := Z.of_nat (List.length userNotes);
                               importantNotes := importantNotesCount |} |})
  end.

End Queries.

(* ------------------------------------------------------------------ *)
(** ** [server/storage.ts]: the class [DrizzleStorage] *)

Module DrizzleStorage.

Definition getUserById (id : Z) : Async (option User.t) :=
  result <- select_users (fun u => User.id u =? id) ;;
  ret (Crud.first result).

Definition getUserByUsername (username : string) : Async (option User.t) :=
  result <- select_users (fun u => String.eqb (User.username u) username) ;;
  ret (Crud.first result).

Definition getAllUsers : Async (list User.t) :=
  select_users (fun _ => true).

Definition createUser (user : InsertUser.t) : Async (option User.t) :=
  result <- insert_users user ;;
  ret (Crud.first result).

Definition getNoteById (id : Z) : Async (option Note.t) :=
  result <- select_notes (fun n => Note.id n =? id) ;;
  ret (Crud.first result).

Definition getAllNotes : Async (list Note.t) :=
  select_notes (fun _ => true).

Definition getNotesByUserId (userId : Z) : Async (list Note.t) :=
  select_notes (fun n => Note.userId n =? userId).

Definition createNote (note : InsertNote.t) (now : Z) : Async (option Note.t) :=
  result <- insert_notes note now ;;
  ret (Crud.first result).

End DrizzleStorage.

(* ------------------------------------------------------------------ *)
(** ** The process: two connections *)

(** [server/db/index.ts] opens one in-memory database ([sqlite], [db]) and
    the CRUD functions and the query helpers import that [db];
    [server/storage.ts] opens an in-memory database of its own for the class
    [DrizzleStorage].  Each [new Database(':memory:')] is a database apart. *)
Record Process : Type := mkProcess {
  index_db : Database;
  storage_db : Database
}.

(** Both modules loaded: both connections open, both pairs of tables
    created and empty. *)
Definition boot : Process :=
  {| index_db := empty_database; storage_db := empty_database |}.

Definition via_index {A} (f : Async A) : Process -> Outcome A * Process :=
  fun p =>
    let (r, d) := f (index_db p) in
    (r, {| index_db := d; storage_db := storage_db p |}).

Definition via_storage {A} (f : Async A) : Process -> Outcome A * Process :=
  fun p =>
    let (r, d) := f (storage_db p) in
    (r, {| index_db := index_db p; storage_db := d |}).

(** The read operations, each with the type of what it resolves with. *)
Inductive Read : Type -> Type :=
| getUserById (id : Z) : Read (option User.t)
| getUserByUsername (username : string) : Read (option User.t)
| getAllUsers : Read (list User.t)
| getNoteById (id : Z) : Read (option Note.t)
| getAllNotes : Read (list Note.t)
| getNotesByUserId (userId : Z) : Read (list Note.t)
| searchNotes (titleQuery : string) (importantOnly : bool) : Read (list Note.t)
| getPaginatedNotes (page limit : Z) : Read Queries.PaginatedNotes
| getNotesWithUsers : Read (list Queries.NoteWithUser)
| getUserWithNotes (userId : Z) : Read (option Queries.UserWithNotes)
| storage_getUserById (id : Z) : Read (option User.t)
| storage_getUserByUsername (username : string) : Read (option User.t)
| storage_getAllUsers : Read (list User.t)
| storage_getNoteById (id : Z) : Read (option Note.t)
| storage_getAllNotes : Read (list Note.t)
| storage_getNotesByUserId (userId : Z) : Read (list Note.t).

Definition perform {A} (call : Read A) : Process -> Outcome A * Process :=
  match call in Read T return Process -> Outcome T * Process with
  | getUserById id => via_index (Crud.getUserById id)
  | getUserByUsername username => via_index (Crud.getUserByUsername username)
  | getAllUsers => via_index Crud.getAllUsers
  | getNoteById id => via_index (Crud.getNoteById id)
  | getAllNotes => via_index Crud.getAllNotes
  | getNotesByUserId userId => via_index (Crud.getNotesByUserId userId)
  | searchNotes titleQuery importantOnly =>
      via_index (Queries.searchNotes titleQuery importantOnly)
  | getPaginatedNotes page limit =>
      via_index (Queries.getPaginatedNotes page limit)
  | getNotesWithUsers => via_index Queries.getNotesWithUsers
  | getUserWithNotes userId => via_index (Queries.getUserWithNotes userId)
  | storage_getUserById id => via_storage (DrizzleStorage.getUserById id)
  | storage_getUserByUsername username =>
      via_storage (DrizzleStorage.getUserByUsername username)
  | storage_getAllUsers => via_storage DrizzleStorage.getAllUsers
  | storage_getNoteById id => via_storage (DrizzleStorage.getNoteById id)
  | storage_getAllNotes => via_storage DrizzleStorage.getAllNotes
  | storage_getNotesByUserId userId =>
      via_storage (DrizzleStorage.getNotesByUserId userId)
  end.

(* ------------------------------------------------------------------ *)
(** ** Vocabulary of the properties *)

(** The constraints the table definitions declare: the two primary keys,
    [username TEXT NOT NULL UNIQUE] and the foreign key of [notes]. *)
Record consistent (d : Database) : Prop := mkConsistent {
  users_pk : NoDup (map User.id (users d));
  users_unique : NoDup (map User.username (users d));
  notes_pk : NoDup (map Note.id (notes d));
  notes_fk : forall n, In n (notes d) -> has_user (Note.userId n) d = true
}.

(** Newest first. *)
Definition newest_first {A} (key : A -> Z) (rows : list A) : Prop :=
  StronglySorted (fun a b => key b <= key a) rows.








(** [{ username: 'johndoe', password: 'password123' }] *)
Definition new_johndoe : InsertUser.t :=
  {| InsertUser.username := "johndoe"; InsertUser.password := "password123" |}.

(** The write operations of both modules. *)
Inductive Write : Type :=
| createUser (user : InsertUser.t)
| updateUser (id : Z) (data : UserPatch.t)
| deleteUser (id : Z)
| createNote (note : InsertNote.t) (now : Z)
| updateNote (id : Z) (data : NotePatch.t)
| deleteNote (id : Z)
| deleteUserNotes (userId : Z)
| storage_createUser (user : InsertUser.t)
| storage_createNote (note : InsertNote.t) (now : Z).

(** The process after a write has settled, resolved or rejected. *)
Definition after (call : Write) (p : Process) : Process :=
  match call with
  | createUser user => snd (via_index (Crud.createUser user) p)
  | updateUser id data => snd (via_index (Crud.updateUser id data) p)
  | deleteUser id => snd (via_index (Crud.deleteUser id) p)
  | createNote note now => snd (via_index (Crud.createNote note now) p)
  | updateNote id data => snd (via_index (Crud.updateNote id data) p)
  | deleteNote id => snd (via_index (Crud.deleteNote id) p)
  | deleteUserNotes userId => snd (via_index (Crud.deleteUserNotes userId) p)
  | storage_createUser user =>
      snd (via_storage (DrizzleStorage.createUser user) p)
  | storage_createNote note now =>
      snd (via_storage (DrizzleStorage.createNote note now) p)
  end.

(** The process after a sequence of writes, one after the other. *)
Definition after_all (calls : list Write) (p : Process) : Process :=
  fold_left (fun q call => after call q) calls p.

(** No key above the counter [sqlite_sequence] keeps for its table. *)
Record sequenced (d : Database) : Prop := mkSequenced {
  users_below_seq : forall u, In u (users d) -> User.id u <= users_seq d;
  notes_below_seq : forall n, In n (notes d) -> Note.id n <= notes_seq d
}.

(* ------------------------------------------------------------------ *)
(** ** The seed function of [server/db] *)

(** [db.insert(table).values([v1, v2, ...])], awaited as it is: the rows go
    in one after the other in one statement, and a row that violates a
    constraint undoes the whole statement. *)
Fixpoint insert_each {V R} (insert_one : V -> Async (list R)) (values : list V)
  : Async unit :=
  match values with
  | [] => ret tt
  | v :: rest => _ <- insert_one v ;; insert_each insert_one rest
  end.

Definition insert_values {V R} (insert_one : V -> Async (list R))
           (values : list V) : Async RunResult :=
  fun d =>
    match values with
    | [] =>
        (Rejected
           (DrizzleError "values() must be called with at least one value"),
         d)
    | _ :: _ =>
        match insert_each insert_one values d with
        | (Resolved _, d') =>
            (Resolved {| changes := Z.of_nat (List.length values);
                         run_lastInsertRowid := lastInsertRowid d' |},
             d')
        | (Rejected e, _) => (Rejected e, d)
        end
    end.

(** [try { body } catch (error) { console.error(...) }]: what the body has
    stored stays, the error goes to the console and the function
    resolves. *)
Definition try_catch {A} (body : Async A) : Async unit :=
  fun d => (Resolved tt, snd (body d)).

Module Seed.

Definition sample_users : list InsertUser.t :=
  [ {| InsertUser.username := "johndoe";
       InsertUser.password := "password123" |};
    {| InsertUser.username := "janedoe";
       InsertUser.password := "password456" |} ].

(** The three sample notes with the [createdAt] each is given; [now1],
    [now2], [now3] are the three [new Date()] of the array literal. *)
Definition sample_notes (user0 user1 : User.t) (now1 now2 now3 : Z)
  : list (InsertNote.t * Z) :=
  [ ({| InsertNote.title := "Getting Started with Drizzle";
        InsertNote.content :=
          "Drizzle ORM is a TypeScript ORM for SQL databases...";
        InsertNote.isImportant := Some true;
        InsertNote.userId := User.id user0 |}, now1);
    ({| InsertNote.title := "SQLite Setup";
        InsertNote.content :=
          "SQLite is a lightweight database that works great for development...";
        InsertNote.isImportant := Some false;
        InsertNote.userId := User.id user0 |}, now2);
    ({| InsertNote.title := "My First Note";
        InsertNote.content := "This is a test note created by Jane Doe.";
        InsertNote.isImportant := Some false;
        InsertNote.userId := User.id user1 |}, now3) ].

(** The messages to the console are left out.  Reading [allUsers[1].id]
    when there is no second user throws a [TypeError] inside the [try],
    which the [catch] turns into a resolved call like any other error. *)
Definition seedDatabase (now1 now2 now3 : Z) : Async unit :=
  try_catch
    (existingUsers <- select_users (fun _ => true) ;;
     if (List.length existingUsers =? 0)%nat then
       _ <- insert_values insert_users sample_users ;;
       allUsers <- select_users (fun _ => true) ;;
       if (0 <? List.length allUsers)%nat then
         match nth_error allUsers 0, nth_error allUsers 1 with
         | Some user0, Some user1 =>
             _ <- insert_values (fun v => insert_notes (fst v) (snd v))
                                (sample_notes user0 user1 now1 now2 now3) ;;
             ret tt
         | _, _ => ret tt
         end
       else ret tt
     else ret tt).

End Seed.

(** [s] with its ASCII capitals made small. *)
Fixpoint lowercase (s : string) : string :=
  match s with
  | EmptyString => EmptyString
  | String c s' => String (to_lower c) (lowercase s')
  end.


(** [d] with the password of every user replaced by what [pw] gives. *)
Definition with_passwords (pw : User.t -> string) (d : Database) : Database :=
  {| users := map (fun u => {| User.id := User.id u;
                               User.username := User.username u;
                               User.password := pw u |}) (users d);
     notes := notes d;
     users_seq := users_seq d;
     notes_seq := notes_seq d;
     lastInsertRowid := lastInsertRowid d |}.

(** [{isImportant: true}] *)
Definition mark_important : NotePatch.t :=
  {| NotePatch.title := None; NotePatch.content := None;
     NotePatch.isImportant := Some true; NotePatch.userId := None |}.

(** An [async] function that leaves the database as it found it. *)
Definition reads_only {A} (f : Async A) : Prop := forall d, snd (f d) = d.

(** The rows of [seedDatabase], all three notes stamped in second [t]. *)
Definition johndoe : User.t :=
  {| User.id := 1; User.username := "johndoe"; User.password := "password123" |}.

Definition janedoe : User.t :=
  {| User.id := 2; User.username := "janedoe"; User.password := "password456" |}.

Definition getting_started (t : Z) : Note.t :=
  {| Note.id := 1; Note.title := "Getting Started with Drizzle";
     Note.content := "Drizzle ORM is a TypeScript ORM for SQL databases...";
     Note.isImportant := true; Note.userId := 1; Note.createdAt := t |}.

Definition sqlite_setup (t : Z) : Note.t :=
  {| Note.id := 2; Note.title := "SQLite Setup";
     Note.content :=
       "SQLite is a lightweight database that works great for development...";
     Note.isImportant := false; Note.userId := 1; Note.createdAt := t |}.

Definition my_first_note (t : Z) : Note.t :=
  {| Note.id := 3; Note.title := "My First Note";
     Note.content := "This is a test note created by Jane Doe.";
     Note.isImportant := false; Note.userId := 2; Note.createdAt := t |}.

Definition seeded (t : Z) : Database :=
  {| users := [johndoe; janedoe];
     notes := [getting_started t; sqlite_setup t; my_first_note t];
     users_seq := 2; notes_seq := 3; lastInsertRowid := 3 |}.

(* ------------------------------------------------------------------ *)
(** ** Lists, keys and first rows *)

Section FirstRow.

Context {A K : Type} (key : A -> K) (eqb : K -> K -> bool).
Hypothesis eqb_spec : forall a b, eqb a b = true <-> a = b.

Lemma filter_key_absent (k : K) (l : list A) :
  ~ In k (map key l) -> filter (fun y => eqb (key y) k) l = [].
Proof.
  induction l as [|y l IH]; simpl; intros H; [reflexivity|].
  destruct (eqb (key y) k) eqn:E.
  - apply eqb_spec in E. exfalso. apply H. now left.
  - apply IH. intros Hin. apply H. now right.
Qed.

Lemma filter_key_unique (x : A) (l : list A) :
  NoDup (map key l) -> In x l ->
  filter (fun y => eqb (key y) (key x)) l = [x].
Proof.
  induction l as [|y l IH]; simpl; intros Hnd Hin; [contradiction|].
  inversion Hnd as [|? ? Hnotin Hnd']; subst.
  destruct Hin as [-> | Hin].
  - replace (eqb (key x) (key x)) with true
      by (symmetry; now apply eqb_spec).
    now rewrite filter_key_absent.
  - destruct (eqb (key y) (key x)) eqn:E.
    + apply eqb_spec in E. exfalso. apply Hnotin. rewrite E.
      now apply in_map.
    + now apply IH.
Qed.

End FirstRow.

Lemma string_eqb_iff (a b : string) : String.eqb a b = true <-> a = b.
Proof. apply String.eqb_eq. Qed.

Lemma has_user_iff (uid : Z) (d : Database) :
  has_user uid d = true <-> exists u, In u (users d) /\ User.id u = uid.
Proof.
  unfold has_user. rewrite existsb_exists.
  split; intros [u [Hin H]]; exists u; split; auto; now apply Z.eqb_eq.
Qed.

Lemma has_username_iff (name : string) (us : list User.t) :
  has_username name us = true <-> In name (map User.username us).
Proof.
  unfold has_username. rewrite existsb_exists, in_map_iff.
  split; intros [u H]; exists u.
  - destruct H as [Hin H]. apply String.eqb_eq in H. now split.
  - destruct H as [H Hin]. split; [assumption|]. now apply String.eqb_eq.
Qed.

(* ------------------------------------------------------------------ *)
(** ** Reads leave the database as it is *)

Lemma reads_only_ret {A} (a : A) : reads_only (ret a).
Proof. intros d. reflexivity. Qed.

Lemma reads_only_bind {A B} (m : Async A) (k : A -> Async B) :
  reads_only m -> (forall a, reads_only (k a)) -> reads_only (bind m k).
Proof.
  intros Hm Hk d. unfold bind. specialize (Hm d).
  destruct (m d) as [[a|e] d']; simpl in *; subst.
  - apply Hk.
  - reflexivity.
Qed.

Lemma reads_only_select_users p : reads_only (select_users p).
Proof. intros d. reflexivity. Qed.

Lemma reads_only_select_notes p : reads_only (select_notes p).
Proof. intros d. reflexivity. Qed.

Lemma reads_only_select_notes_newest_first p :
  reads_only (select_notes_newest_first p).
Proof.
  intros d. unfold select_notes_newest_first.
  now destruct (where_rows p (notes d)).
Qed.

Lemma reads_only_select_notes_page l o : reads_only (select_notes_page l o).
Proof. intros d. reflexivity. Qed.

Lemma reads_only_select_count_notes : reads_only select_count_notes.
Proof. intros d. reflexivity. Qed.

Create HintDb reads.
#[local] Hint Resolve reads_only_ret reads_only_select_users
  reads_only_select_notes reads_only_select_notes_newest_first
  reads_only_select_notes_page reads_only_select_count_notes : reads.

Ltac reads_only_tac :=
  repeat (apply reads_only_bind; [|intro]); auto with reads.

Lemma reads_only_searchNotes q imp : reads_only (Queries.searchNotes q imp).
Proof.
  unfold Queries.searchNotes.
  destruct (Queries.truthy q), imp; simpl; auto with reads.
Qed.

Lemma reads_only_getPaginatedNotes page limit :
  reads_only (Queries.getPaginatedNotes page limit).
Proof. unfold Queries.getPaginatedNotes. reads_only_tac. Qed.

Lemma reads_only_getNotesWithUsers : reads_only Queries.getNotesWithUsers.
Proof. intros d. reflexivity. Qed.

Lemma reads_only_getUserWithNotes userId :
  reads_only (Queries.getUserWithNotes userId).
Proof.
  unfold Queries.getUserWithNotes.
  apply reads_only_bind; [auto with reads|intros user].
  destruct (Crud.first user); reads_only_tac.
Qed.

Lemma via_index_reads_only {A} (f : Async A) (p : Process) :
  reads_only f -> snd (via_index f p) = p.
Proof.
  intros H. unfold via_index. specialize (H (index_db p)).
  destruct (f (index_db p)) as [r d]; simpl in *; subst. now destruct p.
Qed.

Lemma via_storage_reads_only {A} (f : Async A) (p : Process) :
  reads_only f -> snd (via_storage f p) = p.
Proof.
  intros H. unfold via_storage. specialize (H (storage_db p)).
  destruct (f (storage_db p)) as [r d]; simpl in *; subst. now destruct p.
Qed.

Lemma perform_unchanged {A} (call : Read A) (p : Process) :
  snd (perform call p) = p.
Proof.
  destruct call; cbn [perform];
    first [ apply via_index_reads_only | apply via_storage_reads_only ];
    first [ apply reads_only_searchNotes
          | apply reads_only_getPaginatedNotes
          | apply reads_only_getNotesWithUsers
          | apply reads_only_getUserWithNotes
          | unfold Crud.getUserById, Crud.getUserByUsername, Crud.getAllUsers,
              Crud.getNoteById, Crud.getAllNotes, Crud.getNotesByUserId,
              DrizzleStorage.getUserById, DrizzleStorage.getUserByUsername,
              DrizzleStorage.getAllUsers, DrizzleStorage.getNoteById,
              DrizzleStorage.getAllNotes, DrizzleStorage.getNotesByUserId;
            reads_only_tac ].
Qed.

(** C10.  A read operation leaves the stored state as it was: whichever of
    the ten read functions of the data-access layer and the query helpers
    (or of the six read methods of [DrizzleStorage]) is called, on whatever
    input and in whatever state, both tables of both connections, and every
    counter with them, are afterwards what they were before. *)
Theorem C10_reads_leave_state_unchanged :
  forall (A : Type) (call : Read A) (p : Process),
    snd (perform call p) = p
    /\ users (index_db (snd (perform call p))) = users (index_db p)
    /\ notes (index_db (snd (perform call p))) = notes (index_db p).
Proof.
  intros A call p. rewrite perform_unchanged. repeat split.
Qed.

(* ------------------------------------------------------------------ *)
(** ** Deleting *)

Lemma cascade_child_iff (id : Z) (us : list User.t) (n : Note.t) :
  In id (map User.id us) ->
  existsb (fun u => User.id u =? Note.userId n)
          (filter (fun u => User.id u =? id) us) = true
  <-> Note.userId n = id.
Proof.
  intros Hin. rewrite existsb_exists. split.
  - intros [u [Hu E]]. apply filter_In in Hu. destruct Hu as [_ Hu].
    apply Z.eqb_eq in Hu, E. congruence.
  - intros E. apply in_map_iff in Hin. destruct Hin as [u [Hid Hu]].
    exists u. split.
    + apply filter_In. split; [assumption|]. now apply Z.eqb_eq.
    + apply Z.eqb_eq. congruence.
Qed.

Lemma filter_none {A} (p : A -> bool) (l : list A) :
  (forall x, In x l -> p x = false) -> filter p l = [].
Proof.
  induction l as [|x l IH]; simpl; intros H; [reflexivity|].
  rewrite (H x) by now left. apply IH. intros y Hy. apply H. now right.
Qed.

(** C1.  Deleting an existing user removes that user's notes: the call
    resolves with the deleted row, a following [getNotesByUserId] of the same
    id resolves with the empty sequence however many notes the user had, the
    notes that are gone are exactly the ones that referred to the user, and
    the state after [deleteUser] is the state after its one [DELETE]
    statement on [users], the notes being removed by the [ON DELETE CASCADE]
    of the foreign key. *)
Theorem C1_deleteUser_cascades :
  forall (d : Database) (u : User.t),
    In u (users d) ->
    exists row d',
      Crud.deleteUser (User.id u) d = (Resolved (Some row), d')
      /\ User.id row = User.id u
      /\ fst (Crud.getNotesByUserId (User.id u) d') = Resolved []
      /\ (forall n, In n (notes d')
                    <-> In n (notes d) /\ Note.userId n <> User.id u)
      /\ d' = snd (delete_users notes_user_id_on_delete (User.id u) d).
Proof.
  intros d u Hu.
  assert (Hid : In (User.id u) (map User.id (users d))) by now apply in_map.
  unfold Crud.deleteUser, bind, ret, notes_user_id_on_delete, delete_users.
  destruct (filter (fun u0 => User.id u0 =? User.id u) (users d))
    as [|row gone] eqn:Hgone.
  - exfalso.
    assert (H : In u (filter (fun u0 => User.id u0 =? User.id u) (users d))).
    { apply filter_In. split; [assumption|]. apply Z.eqb_refl. }
    rewrite Hgone in H. exact H.
  - eexists. eexists. split; [reflexivity|].
    assert (Hchild : forall n,
               existsb (fun u0 => User.id u0 =? Note.userId n) (row :: gone) = true
               <-> Note.userId n = User.id u).
    { intros n. rewrite <- Hgone. now apply cascade_child_iff. }
    split; [|split; [|split]].
    + assert (H : In row (row :: gone)) by now left.
      rewrite <- Hgone in H. apply filter_In in H. destruct H as [_ H].
      now apply Z.eqb_eq.
    + unfold Crud.getNotesByUserId, select_notes. cbn [fst notes].
      f_equal. apply filter_none. intros n Hn.
      apply filter_In in Hn. destruct Hn as [_ Hn].
      apply Z.eqb_neq. intros E. apply Hchild in E.
      rewrite E in Hn. discriminate.
    + intros n. cbn [notes]. rewrite filter_In. split.
      * intros [Hn Hc]. split; [assumption|]. intros E.
        apply Hchild in E. rewrite E in Hc. discriminate.
      * intros [Hn Hne]. split; [assumption|].
        destruct (existsb _ (row :: gone)) eqn:E; [|reflexivity].
        apply Hchild in E. contradiction.
    + reflexivity.
Qed.

(** C9.  [deleteUserNotes userId] always resolves; it resolves with the
    driver's run result, whose [changes] is the number of notes deleted; the
    notes left are the notes whose [userId] differs, in their order and
    unmodified, so exactly the notes of that user are gone; and no user row
    is touched. *)
Theorem C9_deleteUserNotes_exact :
  forall (d : Database) (userId : Z),
    exists r d',
      Crud.deleteUserNotes userId d = (Resolved r, d')
      /\ changes r
         = Z.of_nat (List.length
                       (filter (fun n => Note.userId n =? userId) (notes d)))
      /\ notes d' = filter (fun n => negb (Note.userId n =? userId)) (notes d)
      /\ (forall n, In n (notes d')
                    <-> In n (notes d) /\ Note.userId n <> userId)
      /\ users d' = users d.
Proof.
  intros d userId. eexists. eexists. split; [reflexivity|].
  cbn [changes notes users without_notes]. repeat split.
  - apply filter_In in H. tauto.
  - apply filter_In in H. destruct H as [_ H].
    apply Bool.negb_true_iff, Z.eqb_neq in H. assumption.
  - intros [Hn Hne]. apply filter_In. split; [assumption|].
    now apply Bool.negb_true_iff, Z.eqb_neq.
Qed.

(* ------------------------------------------------------------------ *)
(** ** Updating a note *)

Lemma map_step_In {A} (hit : A -> bool) (f : A -> A) (l : list A) (m : A) :
  In m (map (fun x => if hit x then f x else x) l)
  <-> exists x, In x l /\ m = (if hit x then f x else x).
Proof.
  rewrite in_map_iff. split; intros [x [H1 H2]]; exists x; auto.
Qed.

(** C8.  In a database that satisfies its declared constraints,
    [updateNote n.id {isImportant: true}] on a stored note [n] resolves with
    [n] whose [isImportant] is now [true] and whose [id], [title], [content],
    [userId] and [createdAt] are those of [n]; that row takes the place of
    [n] in the table; every other note is still stored, unchanged and in its
    place; and the user rows are the same. *)
Theorem C8_updateNote_isImportant_only :
  forall (d : Database) (n : Note.t),
    consistent d ->
    In n (notes d) ->
    exists n' d',
      Crud.updateNote (Note.id n) mark_important d = (Resolved (Some n'), d')
      /\ n' = {| Note.id := Note.id n;
                 Note.title := Note.title n;
                 Note.content := Note.content n;
                 Note.isImportant := true;
                 Note.userId := Note.userId n;
                 Note.createdAt := Note.createdAt n |}
      /\ notes d' = map (fun m => if Note.id m =? Note.id n then n' else m)
                        (notes d)
      /\ (forall m, In m (notes d')
                    <-> m = n' \/ (In m (notes d) /\ Note.id m <> Note.id n))
      /\ users d' = users d.
Proof.
  intros d n Hc Hn.
  pose proof (filter_key_unique Note.id Z.eqb Z.eqb_eq n (notes d)
                                (notes_pk d Hc) Hn) as Hfilter.
  unfold Crud.updateNote, bind, ret, update_notes.
  cbn [note_patch_is_empty mark_important NotePatch.title NotePatch.content
       NotePatch.isImportant NotePatch.userId].
  rewrite Hfilter. cbn [map Crud.first hd_error].
  eexists. eexists. split; [reflexivity|].
  assert (Hstep : forall m, In m (notes d) ->
            (if Note.id m =? Note.id n then patch_note mark_important m else m)
            = (if Note.id m =? Note.id n then patch_note mark_important n else m)).
  { intros m Hm. destruct (Note.id m =? Note.id n) eqn:E; [|reflexivity].
    assert (Hmf : In m (filter (fun y => Note.id y =? Note.id n) (notes d)))
      by (apply filter_In; now split).
    rewrite Hfilter in Hmf. destruct Hmf as [<-|[]]. reflexivity. }
  split; [reflexivity|]. split; [|split].
  - cbn [notes]. now apply map_ext_in.
  - intros m. cbn [notes]. rewrite map_step_In. split.
    + intros [x [Hx ->]]. rewrite (Hstep x Hx).
      destruct (Note.id x =? Note.id n) eqn:E; [now left|right].
      split; [assumption|]. now apply Z.eqb_neq.
    + intros [-> | [Hm Hne]].
      * exists n. split; [assumption|]. now rewrite Z.eqb_refl.
      * exists m. split; [assumption|].
        apply Z.eqb_neq in Hne. now rewrite Hne.
  - reflexivity.
Qed.

(* ------------------------------------------------------------------ *)
(** ** The seeded database *)

Lemma NoDup_by_nodup {A} (dec : forall x y : A, {x = y} + {x <> y})
      (l : list A) : nodup dec l = l -> NoDup l.
Proof. intros H. rewrite <- H. apply NoDup_nodup. Qed.

Lemma consistent_seeded (t : Z) : consistent (seeded t).
Proof.
  constructor.
  - apply (NoDup_by_nodup Z.eq_dec). reflexivity.
  - apply (NoDup_by_nodup string_dec). reflexivity.
  - apply (NoDup_by_nodup Z.eq_dec). reflexivity.
  - intros n [<-|[<-|[<-|[]]]]; reflexivity.
Qed.

Lemma C1_deleteUser_cascades_witness :
  exists row d',
    Crud.deleteUser 1 (seeded 1700000000) = (Resolved (Some row), d')
    /\ User.id row = 1
    /\ fst (Crud.getNotesByUserId 1 d') = Resolved []
    /\ (forall n, In n (notes d')
                  <-> In n (notes (seeded 1700000000)) /\ Note.userId n <> 1)
    /\ d' = snd (delete_users notes_user_id_on_delete 1 (seeded 1700000000)).
Proof.
  apply (C1_deleteUser_cascades (seeded 1700000000) johndoe).
  simpl. left. reflexivity.
Defined.

Lemma C8_updateNote_isImportant_only_witness :
  exists n' d',
    Crud.updateNote 2 mark_important (seeded 1700000000)
    = (Resolved (Some n'), d')
    /\ n' = {| Note.id := 2;
               Note.title := "SQLite Setup";
               Note.content :=
                 "SQLite is a lightweight database that works great for development...";
               Note.isImportant := true;
               Note.userId := 1;
               Note.createdAt := 1700000000 |}
    /\ notes d' = map (fun m => if Note.id m =? 2 then n' else m)
                      (notes (seeded 1700000000))
    /\ (forall m, In m (notes d')
                  <-> m = n' \/ (In m (notes (seeded 1700000000))
                                 /\ Note.id m <> 2))
    /\ users d' = users (seeded 1700000000).
Proof.
  apply (C8_updateNote_isImportant_only (seeded 1700000000)
                                        (sqlite_setup 1700000000)).
  - apply consistent_seeded.
  - simpl. right. left. reflexivity.
Defined.

(* ------------------------------------------------------------------ *)
(** ** A user with their notes *)

Lemma first_filter_some {A} (p : A -> bool) (l : list A) (x : A) :
  Crud.first (filter p l) = Some x -> In x l /\ p x = true.
Proof.
  intros H. apply filter_In.
  destruct (filter p l) as [|y rest]; [discriminate|].
  injection H as ->. now left.
Qed.

Lemma filter_twice {A} (p q : A -> bool) (l : list A) :
  filter q (filter p l) = filter (fun x => p x && q x) l.
Proof.
  induction l as [|x l IH]; [reflexivity|]. simpl.
  destruct (p x); simpl; [|assumption].
  destruct (q x); now rewrite IH.
Qed.

(** C6.  [getUserWithNotes userId] stores nothing; it resolves with [null]
    when no user has that id; and when a user [u] has it, it resolves with a
    stored user of that id (with [u] itself under the primary key), with
    the stored notes whose [userId] is that id, each once and in their
    order, and with [stats] computed from the notes: [totalNotes] is the
    number of stored notes of that user and [importantNotes] the number of
    those whose [isImportant] is true. *)
Theorem C6_getUserWithNotes :
  forall (d : Database) (userId : Z),
    snd (Queries.getUserWithNotes userId d) = d
    /\ ((forall u, In u (users d) -> User.id u <> userId) ->
        fst (Queries.getUserWithNotes userId d) = Resolved None)
    /\ (forall u, In u (users d) -> User.id u = userId ->
        exists r,
          fst (Queries.getUserWithNotes userId d) = Resolved (Some r)
          /\ In (Queries.uwn_user r) (users d)
          /\ User.id (Queries.uwn_user r) = userId
          /\ (consistent d -> Queries.uwn_user r = u)
          /\ Queries.uwn_notes r
             = filter (fun n => Note.userId n =? userId) (notes d)
          /\ (forall n, In n (Queries.uwn_notes r)
                        <-> In n (notes d) /\ Note.userId n = userId)
          /\ Queries.totalNotes (Queries.stats r)
             = Z.of_nat (List.length
                           (filter (fun n => Note.userId n =? userId)
                                   (notes d)))
          /\ Queries.importantNotes (Queries.stats r)
             = Z.of_nat (List.length
                           (filter (fun n => (Note.userId n =? userId)
                                             && Note.isImportant n)
                                   (notes d)))).
Proof.
  intros d userId. split; [apply reads_only_getUserWithNotes|].
  unfold Queries.getUserWithNotes, bind, select_users, select_notes, ret.
  split.
  - intros Hnone. rewrite filter_none; [reflexivity|].
    intros u Hu. apply Z.eqb_neq. now apply Hnone.
  - intros u Hu Hid.
    destruct (Crud.first (filter (fun u0 => User.id u0 =? userId) (users d)))
      as [user0|] eqn:Hfirst.
    + apply first_filter_some in Hfirst. destruct Hfirst as [Hin0 Hid0].
      apply Z.eqb_eq in Hid0.
      eexists. split; [reflexivity|]. cbn [Queries.uwn_user Queries.uwn_notes
        Queries.stats Queries.totalNotes Queries.importantNotes].
      split; [assumption|]. split; [assumption|]. split.
      { intros Hc.
        pose proof (filter_key_unique User.id Z.eqb Z.eqb_eq u (users d)
                      (users_pk d Hc) Hu) as Hone.
        assert (H0 : In user0 (filter (fun y => User.id y =? User.id u)
                                      (users d))).
        { apply filter_In. split; [assumption|]. apply Z.eqb_eq. congruence. }
        rewrite Hone in H0. destruct H0 as [<-|[]]. reflexivity. }
      split; [reflexivity|]. split.
      { intros n. rewrite filter_In, Z.eqb_eq. tauto. }
      split; [reflexivity|].
      now rewrite filter_twice.
    + exfalso.
      assert (H : In u (filter (fun u0 => User.id u0 =? userId) (users d))).
      { apply filter_In. split; [assumption|]. now apply Z.eqb_eq. }
      destruct (filter (fun u0 => User.id u0 =? userId) (users d));
        [exact H|discriminate].
Qed.

Lemma C6_getUserWithNotes_witness :
  exists r,
    fst (Queries.getUserWithNotes 1 (seeded 1700000000)) = Resolved (Some r)
    /\ Queries.uwn_user r = johndoe
    /\ Queries.uwn_notes r
       = [getting_started 1700000000; sqlite_setup 1700000000]
    /\ Queries.totalNotes (Queries.stats r) = 2
    /\ Queries.importantNotes (Queries.stats r) = 1.
Proof.
  destruct (C6_getUserWithNotes (seeded 1700000000) 1) as [_ [_ H]].
  destruct (H johndoe) as [r [Hr [_ [_ [Hu [Hn [_ [Ht Hi]]]]]]]].
  - simpl. left. reflexivity.
  - reflexivity.
  - exists r. split; [exact Hr|]. split; [apply Hu, consistent_seeded|].
    rewrite Hn, Ht, Hi. repeat split.
Defined.

(* ------------------------------------------------------------------ *)
(** ** A second user of the same name *)

(** C3 as the code has it.  In a database that satisfies its declared
    constraints and holds a user [u], creating a user with [u]'s username
    rejects and stores nothing.  What the caller catches is the engine's
    own error, passed on as it is: its [code] is
    [SQLITE_CONSTRAINT_UNIQUE], its [message] names the column
    [users.username], and it has no [field] and no [resource] property.
    [u] is still what [getUserById] and [getUserByUsername] resolve
    with. *)
Theorem C3_duplicate_username_engine_error :
  forall (d : Database) (u : User.t) (user : InsertUser.t),
    consistent d ->
    In u (users d) ->
    InsertUser.username user = User.username u ->
    exists e,
      Crud.createUser user d = (Rejected e, d)
      /\ property "name" e = Some "SqliteError"%string
      /\ property "code" e = Some "SQLITE_CONSTRAINT_UNIQUE"%string
      /\ property "message" e
         = Some "UNIQUE constraint failed: users.username"%string
      /\ property "field" e = None
      /\ property "resource" e = None
      /\ fst (Crud.getUserById (User.id u) d) = Resolved (Some u)
      /\ fst (Crud.getUserByUsername (User.username u) d)
         = Resolved (Some u).
Proof.
  intros d u user Hc Hu Hname. exists unique_users_username.
  split; [|do 5 (split; [reflexivity|]); split].
  - unfold Crud.createUser, bind, insert_users.
    replace (has_username (InsertUser.username user) (users d)) with true;
      [reflexivity|].
    symmetry. apply has_username_iff. rewrite Hname. now apply in_map.
  - unfold Crud.getUserById, bind, select_users, ret. cbn [fst].
    now rewrite (filter_key_unique User.id Z.eqb Z.eqb_eq u (users d)
                   (users_pk d Hc) Hu).
  - unfold Crud.getUserByUsername, bind, select_users, ret. cbn [fst].
    now rewrite (filter_key_unique User.username String.eqb string_eqb_iff u
                   (users d) (users_unique d Hc) Hu).
Qed.

Lemma C3_duplicate_username_engine_error_witness :
  exists e,
    Crud.createUser
      {| InsertUser.username := "johndoe"; InsertUser.password := "hunter2" |}
      (seeded 1700000000)
    = (Rejected e, seeded 1700000000)
    /\ property "code" e = Some "SQLITE_CONSTRAINT_UNIQUE"%string
    /\ fst (Crud.getUserById 1 (seeded 1700000000)) = Resolved (Some johndoe)
    /\ fst (Crud.getUserByUsername "johndoe" (seeded 1700000000))
       = Resolved (Some johndoe).
Proof.
  destruct (C3_duplicate_username_engine_error
              (seeded 1700000000) johndoe
              {| InsertUser.username := "johndoe";
                 InsertUser.password := "hunter2" |})
    as [e [He [_ [Hcode [_ [_ [_ [Hid Hname]]]]]]]].
  - apply consistent_seeded.
  - simpl. left. reflexivity.
  - reflexivity.
  - exists e. repeat split; assumption.
Defined.

(** The claim C3 as it is worded fails on the code: the rejection of a
    second johndoe is the driver's [SqliteError], not an error of a
    constraint-violation type of the layer's own, and it has neither a
    [field] nor a [resource] property to tell the caller which field was
    at fault. *)
Lemma C3_counterexample :
  exists e,
    Crud.createUser
      {| InsertUser.username := "johndoe"; InsertUser.password := "hunter2" |}
      (seeded 1700000000)
    = (Rejected e, seeded 1700000000)
    /\ property "name" e = Some "SqliteError"%string
    /\ property "field" e = None
    /\ property "resource" e = None.
Proof. eexists. repeat split. Defined.

(* ------------------------------------------------------------------ *)
(** ** [ORDER BY ... DESC] *)

Section OrderBy.

Context {A : Type} (key : A -> Z).

Lemma insert_desc_perm (x : A) (rows : list A) :
  Permutation (insert_desc key x rows) (x :: rows).
Proof.
  induction rows as [|y rest IH]; simpl; [reflexivity|].
  destruct (key y <=? key x); [reflexivity|].
  rewrite IH. apply perm_swap.
Qed.

Lemma order_by_desc_perm (rows : list A) :
  Permutation (order_by_desc key rows) rows.
Proof.
  induction rows as [|x rest IH]; simpl; [reflexivity|].
  rewrite insert_desc_perm. now apply perm_skip.
Qed.

Lemma order_by_desc_In (rows : list A) (x : A) :
  In x (order_by_desc key rows) <-> In x rows.
Proof.
  split; apply Permutation_in;
    [|symmetry]; apply order_by_desc_perm.
Qed.


Lemma insert_desc_sorted (x : A) (rows : list A) :
  newest_first key rows -> newest_first key (insert_desc key x rows).
Proof.
  unfold newest_first.
  induction rows as [|y rest IH]; simpl; intros Hs.
  - constructor; constructor.
  - inversion Hs as [|? ? Hrest Hall]; subst.
    destruct (key y <=? key x) eqn:E.
    + apply Z.leb_le in E. constructor; [assumption|].
      constructor; [assumption|].
      rewrite Forall_forall in *. intros z Hz. specialize (Hall z Hz). lia.
    + apply Z.leb_gt in E. constructor; [now apply IH|].
      rewrite Forall_forall in *. intros z Hz.
      apply (Permutation_in _ (insert_desc_perm x rest)) in Hz.
      destruct Hz as [<-|Hz]; [lia|now apply Hall].
Qed.

Lemma order_by_desc_sorted (rows : list A) :
  newest_first key (order_by_desc key rows).
Proof.
  induction rows as [|x rest IH]; simpl.
  - constructor.
  - now apply insert_desc_sorted.
Qed.

End OrderBy.

Lemma newest_first_map {A B} (f : A -> B) (kb : B -> Z) (rows : list A) :
  newest_first (fun a => kb (f a)) rows -> newest_first kb (map f rows).
Proof.
  unfold newest_first. induction 1 as [|a l Hs IH Hall]; simpl.
  - constructor.
  - constructor; [assumption|].
    rewrite Forall_forall in *. intros b Hb.
    apply in_map_iff in Hb. destruct Hb as [a' [<- Ha']]. now apply Hall.
Qed.

(* ------------------------------------------------------------------ *)
(** ** Notes with their authors *)

Lemma inner_join_In (ns : list Note.t) (us : list User.t) n u :
  In (n, u) (inner_join ns us)
  <-> In n ns /\ In u us /\ Note.userId n = User.id u.
Proof.
  unfold inner_join. rewrite in_flat_map. split.
  - intros [m [Hm H]]. apply in_map_iff in H.
    destruct H as [v [E Hv]]. injection E as -> ->.
    apply filter_In in Hv. destruct Hv as [Hv E].
    apply Z.eqb_eq in E. auto.
  - intros [Hn [Hu E]]. exists n. split; [assumption|].
    apply in_map. apply filter_In. split; [assumption|]. now apply Z.eqb_eq.
Qed.

Lemma order_by_desc_map {A B} (h : A -> B) (key : A -> Z) (key' : B -> Z)
      (rows : list A) :
  (forall x, key' (h x) = key x) ->
  order_by_desc key' (map h rows) = map h (order_by_desc key rows).
Proof.
  intros Hkey. induction rows as [|x rows IH]; [reflexivity|].
  cbn [map order_by_desc fold_right].
  change (fold_right (insert_desc key') [] (map h rows))
    with (order_by_desc key' (map h rows)).
  change (fold_right (insert_desc key) [] rows) with (order_by_desc key rows).
  rewrite IH. generalize (order_by_desc key rows) as sorted.
  induction sorted as [|y sorted IHs]; [reflexivity|].
  cbn [map insert_desc]. rewrite !Hkey.
  destruct (key y <=? key x); [reflexivity|].
  cbn [map]. now rewrite IHs.
Qed.

Lemma inner_join_repassword (pw : User.t -> string) (ns : list Note.t)
      (us : list User.t) :
  inner_join ns
    (map (fun u => {| User.id := User.id u;
                      User.username := User.username u;
                      User.password := pw u |}) us)
  = map (fun row => (fst row,
                     {| User.id := User.id (snd row);
                        User.username := User.username (snd row);
                        User.password := pw (snd row) |}))
        (inner_join ns us).
Proof.
  unfold inner_join. induction ns as [|n ns IH]; [reflexivity|].
  cbn [flat_map]. rewrite map_app, IH. f_equal. clear IH.
  induction us as [|u us IHu]; [reflexivity|].
  cbn [map filter User.id].
  destruct (Note.userId n =? User.id u); [|exact IHu].
  cbn [map fst snd]. f_equal. exact IHu.
Qed.

(** C7.  [getNotesWithUsers] stores nothing and resolves with one row
    [{note: {id, title, content, isImportant, createdAt}, user: {id,
    username}}] for each pair of the inner join of [notes] and [users] on
    [notes.userId = users.id], the fields of the row being those of the
    pair's note and user: a pair (note, user) gives a row exactly when both
    are stored and the note refers to the user, so a note without a
    matching user gives no row.  The rows come newest first by the note's
    [createdAt].  A row has no field for the password, and the outcome is
    the same whatever the passwords stored. *)
Theorem C7_getNotesWithUsers :
  forall d : Database,
    (exists pairs,
        Queries.getNotesWithUsers d
        = (Resolved
             (map (fun pair : Note.t * User.t =>
                     {| Queries.note :=
                          {| Queries.note_id := Note.id (fst pair);
                             Queries.note_title := Note.title (fst pair);
                             Queries.note_content := Note.content (fst pair);
                             Queries.note_isImportant :=
                               Note.isImportant (fst pair);
                             Queries.note_createdAt :=
                               Note.createdAt (fst pair) |};
                        Queries.user :=
                          {| Queries.user_id := User.id (snd pair);
                             Queries.user_username :=
                               User.username (snd pair) |} |})
                  pairs),
           d)
        /\ Permutation pairs (inner_join (notes d) (users d))
        /\ (forall n u, In (n, u) pairs
                        <-> In n (notes d) /\ In u (users d)
                            /\ Note.userId n = User.id u)
        /\ newest_first (fun pair => Note.createdAt (fst pair)) pairs)
    /\ (forall pw : User.t -> string,
           fst (Queries.getNotesWithUsers (with_passwords pw d))
           = fst (Queries.getNotesWithUsers d)).
Proof.
  intros d. split.
  - exists (order_by_desc (fun row => Note.createdAt (fst row))
                          (inner_join (notes d) (users d))).
    split.
    { unfold Queries.getNotesWithUsers. do 2 f_equal.
      apply map_ext. intros [n u]. reflexivity. }
    split; [apply order_by_desc_perm|]. split.
    + intros n u. rewrite order_by_desc_In. apply inner_join_In.
    + apply order_by_desc_sorted.
  - intros pw. unfold Queries.getNotesWithUsers, with_passwords.
    cbn [fst users notes]. f_equal.
    rewrite inner_join_repassword.
    rewrite (order_by_desc_map _ (fun row => Note.createdAt (fst row)))
      by reflexivity.
    rewrite map_map. apply map_ext. intros [n u]. reflexivity.
Qed.

(* ------------------------------------------------------------------ *)
(** ** Pages *)








(* ------------------------------------------------------------------ *)
(** ** [LIKE] and substrings *)

Lemma patternCompare_percent (rest text : string) :
  patternCompare (String "%" rest) text
  = patternCompare rest text
    || match text with
       | EmptyString => false
       | String _ t => patternCompare (String "%" rest) t
       end.
Proof. destruct text; reflexivity. Qed.

Lemma patternCompare_percent_only (text : string) :
  patternCompare "%" text = true.
Proof.
  induction text as [|c t IH].
  - reflexivity.
  - rewrite patternCompare_percent, IH. apply Bool.orb_true_r.
Qed.






Lemma utf8_length_app (a b : string) :
  utf8_length (a ++ b) = utf8_length a + utf8_length b.
Proof.
  induction a as [|c a IH]; [reflexivity|].
  cbn [append utf8_length]. rewrite IH. lia.
Qed.

Lemma utf8_length_pattern (q : string) :
  utf8_length ("%" ++ q ++ "%") = utf8_length q + 2.
Proof.
  rewrite !utf8_length_app. change (utf8_length "%") with 1. lia.
Qed.

Lemma like_within (pattern text : string) :
  utf8_length pattern <= SQLITE_MAX_LIKE_PATTERN_LENGTH ->
  like pattern text
  = Resolved (patternCompare (c_string pattern) (c_string text)).
Proof.
  intros H. unfold like.
  replace (SQLITE_MAX_LIKE_PATTERN_LENGTH <? utf8_length pattern) with false;
    [reflexivity|].
  symmetry. apply Z.ltb_ge. exact H.
Qed.

Lemma where_rows_total {A} (p : A -> Outcome bool) (b : A -> bool)
      (rows : list A) :
  (forall r, In r rows -> p r = Resolved (b r)) ->
  where_rows p rows = Resolved (filter b rows).
Proof.
  induction rows as [|r rows IH]; intros H; [reflexivity|].
  cbn [where_rows filter]. rewrite (H r) by now left.
  rewrite IH by (intros x Hx; apply H; now right).
  reflexivity.
Qed.

Lemma where_rows_ext {A} (p q : A -> Outcome bool) (rows : list A) :
  (forall r, p r = q r) -> where_rows p rows = where_rows q rows.
Proof.
  intros H. induction rows as [|r rows IH]; [reflexivity|].
  cbn [where_rows]. now rewrite H, IH.
Qed.


(** The rows of [searchNotes] for a query whose pattern the engine
    accepts. *)
Lemma searchNotes_rows (q : string) (imp : bool) (d : Database) :
  utf8_length q + 2 <= SQLITE_MAX_LIKE_PATTERN_LENGTH ->
  Queries.searchNotes q imp d
  = (Resolved
       (order_by_desc Note.createdAt
          (filter (fun n =>
                     (negb (Queries.truthy q)
                      || patternCompare (c_string ("%" ++ q ++ "%"))
                                        (c_string (Note.title n)))
                     && (negb imp || Note.isImportant n))
                  (notes d))),
     d).
Proof.
  intros Hlen. rewrite <- utf8_length_pattern in Hlen.
  unfold Queries.searchNotes, select_notes_newest_first.
  destruct (Queries.truthy q), imp; cbn [app List.length Nat.ltb Nat.leb];
    match goal with
    | |- context [filter ?b (notes d)] =>
        rewrite (where_rows_total _ b); [reflexivity|]
    end;
    intros n _; cbn [Queries.and_ Queries.holds negb orb andb];
    rewrite ?like_within by exact Hlen;
    destruct (patternCompare (c_string ("%" ++ q ++ "%"))
                             (c_string (Note.title n))),
             (Note.isImportant n); reflexivity.
Qed.




(* ------------------------------------------------------------------ *)
(** ** Fresh keys and created rows *)

Lemma le_fold_max (i : Z) (ids : list Z) :
  In i ids -> i <= fold_right Z.max 0 ids.
Proof.
  induction ids as [|j ids IH]; simpl; [contradiction|].
  intros [->|H]; [lia|]. specialize (IH H). lia.
Qed.

Lemma next_rowid_fresh (seq : Z) (ids : list Z) :
  ~ In (next_rowid seq ids) ids.
Proof.
  intros H. apply le_fold_max in H. unfold next_rowid in H. lia.
Qed.

Lemma next_rowid_above_seq (seq : Z) (ids : list Z) :
  seq < next_rowid seq ids.
Proof. unfold next_rowid. lia. Qed.

Lemma filter_app_one {A} (p : A -> bool) (l : list A) (x : A) :
  (forall y, In y l -> p y = false) -> p x = true ->
  filter p (l ++ [x]) = [x].
Proof.
  intros Hl Hx. rewrite filter_app, (filter_none p l Hl). simpl.
  now rewrite Hx.
Qed.

Lemma insert_users_resolved (v : InsertUser.t) (d d' : Database) rows :
  insert_users v d = (Resolved rows, d') ->
  exists row,
    rows = [row]
    /\ row = {| User.id := next_rowid (users_seq d) (map User.id (users d));
                User.username := InsertUser.username v;
                User.password := InsertUser.password v |}
    /\ users d' = users d ++ [row]
    /\ notes d' = notes d
    /\ ~ In (InsertUser.username v) (map User.username (users d)).
Proof.
  unfold insert_users.
  destruct (has_username (InsertUser.username v) (users d)) eqn:E;
    [discriminate|].
  intros H. injection H as <- <-. eexists. repeat split.
  intros Hin. apply has_username_iff in Hin. congruence.
Qed.


Lemma created_user_lookup (d : Database) (row : User.t) :
  ~ In (User.id row) (map User.id (users d)) ->
  filter (fun u => User.id u =? User.id row) (users d ++ [row]) = [row].
Proof.
  intros Hfresh. apply filter_app_one; [|apply Z.eqb_refl].
  intros y Hy. apply Z.eqb_neq. intros E. apply Hfresh. rewrite <- E.
  now apply in_map.
Qed.

Lemma created_username_lookup (d : Database) (row : User.t) :
  ~ In (User.username row) (map User.username (users d)) ->
  filter (fun u => String.eqb (User.username u) (User.username row))
         (users d ++ [row]) = [row].
Proof.
  intros Hfresh. apply filter_app_one; [|apply String.eqb_refl].
  intros y Hy. apply String.eqb_neq. intros E. apply Hfresh. rewrite <- E.
  now apply in_map.
Qed.

Lemma created_note_lookup (d : Database) (row : Note.t) :
  ~ In (Note.id row) (map Note.id (notes d)) ->
  filter (fun n => Note.id n =? Note.id row) (notes d ++ [row]) = [row].
Proof.
  intros Hfresh. apply filter_app_one; [|apply Z.eqb_refl].
  intros y Hy. apply Z.eqb_neq. intros E. apply Hfresh. rewrite <- E.
  now apply in_map.
Qed.

(** What [Crud.createUser] (and [DrizzleStorage.createUser], the same
    statement) leaves behind when it resolves. *)
Lemma createUser_resolved (v : InsertUser.t) (d d' : Database) r :
  Crud.createUser v d = (Resolved r, d') ->
  exists row,
    r = Some row
    /\ User.username row = InsertUser.username v
    /\ User.password row = InsertUser.password v
    /\ users d' = users d ++ [row]
    /\ notes d' = notes d
    /\ ~ In (User.id row) (map User.id (users d))
    /\ ~ In (User.username row) (map User.username (users d)).
Proof.
  unfold Crud.createUser, bind, ret.
  destruct (insert_users v d) as [[rows|e] d1] eqn:E; [|discriminate].
  intros H. injection H as <- <-.
  destruct (insert_users_resolved v d d1 rows E)
    as [row [-> [Hrow [Hu [Hn Hfresh]]]]].
  exists row. subst row. cbn [Crud.first hd_error User.id User.username
                               User.password].
  repeat split; try assumption. apply next_rowid_fresh.
Qed.


(* ------------------------------------------------------------------ *)
(** ** Created rows are read back on the same connection *)

Lemma created_user_is_read (v : InsertUser.t) (d d' : Database) (row : User.t) :
  Crud.createUser v d = (Resolved (Some row), d') ->
  fst (Crud.getUserById (User.id row) d') = Resolved (Some row)
  /\ fst (Crud.getUserByUsername (User.username row) d') = Resolved (Some row)
  /\ (exists us, fst (Crud.getAllUsers d') = Resolved us /\ In row us)
  /\ (exists r, fst (Queries.getUserWithNotes (User.id row) d')
                = Resolved (Some r)
                /\ Queries.uwn_user r = row).
Proof.
  intros H. apply createUser_resolved in H.
  destruct H as [row' [E [_ [_ [Hu [_ [Hid Hname]]]]]]].
  injection E as <-.
  pose proof (created_user_lookup d row Hid) as Hbyid.
  pose proof (created_username_lookup d row Hname) as Hbyname.
  unfold Crud.getUserById, Crud.getUserByUsername, Crud.getAllUsers,
    Queries.getUserWithNotes, bind, select_users, select_notes, ret.
  rewrite Hu, Hbyid, Hbyname. cbn [fst Crud.first hd_error].
  repeat split.
  - eexists. split; [reflexivity|]. apply filter_In. split; [|reflexivity].
    apply in_or_app. right. now left.
  - eexists. split; reflexivity.
Qed.




Lemma fst_via_index {A} (f : Async A) (p : Process) :
  fst (via_index f p) = fst (f (index_db p)).
Proof. unfold via_index. now destruct (f (index_db p)). Qed.





(* ------------------------------------------------------------------ *)
(** ** The declared constraints are kept by every statement *)

Lemma distinct_keys_kept {R K : Type} (key : R -> K) (keep : R -> bool) :
  forall rows : list R,
    NoDup (map key rows) -> NoDup (map key (filter keep rows)).
Proof.
  intros rows. induction rows as [|r rows IH]; simpl; intros H;
    [constructor|].
  inversion H as [|? ? Hr Hrows]; subst.
  destruct (keep r); [|now apply IH].
  simpl. constructor; [|now apply IH].
  intros Hin. apply Hr. apply in_map_iff in Hin.
  destruct Hin as [y [E Hy]]. apply filter_In in Hy. rewrite <- E.
  apply in_map. tauto.
Qed.

Lemma NoDup_map_snoc {A B} (f : A -> B) (l : list A) (x : A) :
  NoDup (map f l) -> ~ In (f x) (map f l) -> NoDup (map f (l ++ [x])).
Proof.
  intros Hl Hx. rewrite map_app. simpl.
  apply NoDup_rev in Hl. rewrite <- (rev_involutive (map f l ++ [f x])).
  apply NoDup_rev. rewrite rev_app_distr. simpl.
  constructor; [|assumption]. rewrite <- in_rev. assumption.
Qed.

Lemma has_user_same_ids (uid : Z) (d d' : Database) :
  map User.id (users d') = map User.id (users d) ->
  has_user uid d' = has_user uid d.
Proof.
  intros H. unfold has_user.
  assert (E : forall us, existsb (fun u => User.id u =? uid) us
                         = existsb (fun i => i =? uid) (map User.id us)).
  { induction us as [|u us IH]; simpl; [reflexivity|now rewrite IH]. }
  now rewrite !E, H.
Qed.

Lemma map_id_patched_users (id : Z) (data : UserPatch.t) (us : list User.t) :
  map User.id
      (map (fun u => if User.id u =? id then patch_user data u else u) us)
  = map User.id us.
Proof.
  rewrite map_map. apply map_ext. intros u.
  now destruct (User.id u =? id).
Qed.

Lemma map_id_patched_notes (id : Z) (data : NotePatch.t) (ns : list Note.t) :
  map Note.id
      (map (fun n => if Note.id n =? id then patch_note data n else n) ns)
  = map Note.id ns.
Proof.
  rewrite map_map. apply map_ext. intros n.
  now destruct (Note.id n =? id).
Qed.

Lemma map_step_no_hit {A} (hit : A -> bool) (f : A -> A) (l : list A) :
  (forall x, In x l -> hit x = false) ->
  map (fun x => if hit x then f x else x) l = l.
Proof.
  induction l as [|x l IH]; simpl; intros H; [reflexivity|].
  rewrite (H x) by now left. f_equal. apply IH. intros y Hy. apply H.
  now right.
Qed.

Lemma filter_all {A} (p : A -> bool) (l : list A) :
  (forall x, In x l -> p x = true) -> filter p l = l.
Proof.
  induction l as [|x l IH]; simpl; intros H; [reflexivity|].
  rewrite (H x) by now left. f_equal. apply IH. intros y Hy. apply H.
  now right.
Qed.

Lemma usernames_after_rename (id : Z) (s : string) (pw : option string)
      (us : list User.t) :
  NoDup (map User.id us) ->
  NoDup (map User.username us) ->
  ~ In s (map User.username
              (filter (fun u => negb (User.id u =? id)) us)) ->
  NoDup (map User.username
             (map (fun u => if User.id u =? id
                            then patch_user
                                   {| UserPatch.username := Some s;
                                      UserPatch.password := pw |} u
                            else u) us)).
Proof.
  induction us as [|u us IH]; simpl; intros Hid Hname Hs; [constructor|].
  inversion Hid as [|? ? Hu Hid']; subst.
  inversion Hname as [|? ? Hn Hname']; subst.
  destruct (User.id u =? id) eqn:E.
  - apply Z.eqb_eq in E. simpl in Hs.
    assert (Hnone : forall x, In x us -> (User.id x =? id) = false).
    { intros x Hx. apply Z.eqb_neq. intros Ex. apply Hu. rewrite E, <- Ex.
      now apply in_map. }
    rewrite map_step_no_hit by assumption.
    rewrite filter_all in Hs
      by (intros x Hx; now rewrite (Hnone x Hx)).
    constructor; assumption.
  - simpl in Hs. constructor.
    + intros Hin. apply in_map_iff in Hin. destruct Hin as [x [Ex Hx]].
      apply in_map_iff in Hx. destruct Hx as [y [<- Hy]].
      destruct (User.id y =? id) eqn:Ey.
      * simpl in Ex. apply Hs. left. congruence.
      * apply Hn. rewrite <- Ex. now apply in_map.
    + apply IH; try assumption. intros Hin. apply Hs. now right.
Qed.

Lemma consistent_insert_users (v : InsertUser.t) (d : Database) :
  consistent d -> consistent (snd (insert_users v d)).
Proof.
  intros [Hpk Hun Hnpk Hfk]. unfold insert_users.
  destruct (has_username (InsertUser.username v) (users d)) eqn:E;
    [now constructor|].
  cbn [snd]. constructor; cbn [users notes].
  - apply NoDup_map_snoc; [assumption|]. apply next_rowid_fresh.
  - apply NoDup_map_snoc; [assumption|]. cbn [User.username].
    intros Hin. apply has_username_iff in Hin. congruence.
  - assumption.
  - intros n Hn. specialize (Hfk n Hn). unfold has_user in *. cbn [users].
    rewrite existsb_app, Hfk. reflexivity.
Qed.

Lemma consistent_update_users (id : Z) (data : UserPatch.t) (d : Database) :
  consistent d -> consistent (snd (update_users id data d)).
Proof.
  intros Hc. pose proof Hc as [Hpk Hun Hnpk Hfk]. unfold update_users.
  destruct (user_patch_is_empty data); [assumption|].
  destruct data as [name pw]. cbn [UserPatch.username].
  destruct name as [s|].
  - destruct (existsb (fun u => User.id u =? id) (users d)) eqn:Ehit.
    + cbn [andb].
      destruct (has_username s
                  (filter (fun u => negb (User.id u =? id)) (users d))) eqn:Ec;
        [assumption|].
      cbn [snd]. constructor; cbn [users notes].
      * now rewrite map_id_patched_users.
      * apply usernames_after_rename; try assumption.
        intros Hin. apply has_username_iff in Hin. congruence.
      * assumption.
      * intros n Hn. rewrite <- (Hfk n Hn). apply has_user_same_ids.
        apply map_id_patched_users.
    + cbn [andb snd].
      assert (Hnone : forall x, In x (users d) -> (User.id x =? id) = false).
      { intros x Hx. destruct (User.id x =? id) eqn:Ex; [|reflexivity].
        assert (Ht : existsb (fun u => User.id u =? id) (users d) = true)
          by (apply existsb_exists; now exists x).
        congruence. }
      constructor; cbn [users notes]; rewrite ?map_step_no_hit by assumption;
        assumption.
  - cbn [snd]. constructor; cbn [users notes].
    + now rewrite map_id_patched_users.
    + rewrite map_map.
      rewrite (map_ext _ User.username); [assumption|].
      intros u. now destruct (User.id u =? id).
    + assumption.
    + intros n Hn. rewrite <- (Hfk n Hn). apply has_user_same_ids.
      apply map_id_patched_users.
Qed.

Lemma consistent_delete_users (id : Z) (d : Database) :
  consistent d -> consistent (snd (delete_users CASCADE id d)).
Proof.
  intros [Hpk Hun Hnpk Hfk]. unfold delete_users. cbn [snd].
  constructor; cbn [users notes].
  - now apply distinct_keys_kept.
  - now apply distinct_keys_kept.
  - now apply distinct_keys_kept.
  - intros n Hn. apply filter_In in Hn. destruct Hn as [Hn Hkeep].
    apply Bool.negb_true_iff in Hkeep.
    specialize (Hfk n Hn). apply has_user_iff in Hfk.
    destruct Hfk as [u [Hu Huid]].
    apply has_user_iff. exists u. split; [|assumption]. cbn [users].
    apply filter_In. split; [assumption|].
    destruct (User.id u =? id) eqn:E; [|reflexivity]. exfalso.
    assert (Ht : existsb (fun u0 => User.id u0 =? Note.userId n)
                         (filter (fun u0 => User.id u0 =? id) (users d))
                 = true).
    { apply existsb_exists. exists u. split.
      - apply filter_In. now split.
      - now apply Z.eqb_eq. }
    congruence.
Qed.

Lemma consistent_insert_notes (v : InsertNote.t) (now : Z) (d : Database) :
  consistent d -> consistent (snd (insert_notes v now d)).
Proof.
  intros [Hpk Hun Hnpk Hfk]. unfold insert_notes.
  destruct (has_user (InsertNote.userId v) d) eqn:E; [|now constructor].
  cbn [snd]. constructor; cbn [users notes]; try assumption.
  - apply NoDup_map_snoc; [assumption|]. apply next_rowid_fresh.
  - intros n Hn. apply in_app_or in Hn. destruct Hn as [Hn|[<-|[]]].
    + apply Hfk. assumption.
    + exact E.
Qed.

Lemma consistent_update_notes (id : Z) (data : NotePatch.t) (d : Database) :
  consistent d -> consistent (snd (update_notes id data d)).
Proof.
  intros Hc. pose proof Hc as [Hpk Hun Hnpk Hfk]. unfold update_notes.
  destruct (note_patch_is_empty data); [assumption|].
  destruct (match NotePatch.userId data with
            | Some uid => existsb (fun n => Note.id n =? id) (notes d)
                          && negb (has_user uid d)
            | None => false
            end) eqn:Eorphan; [assumption|].
  cbn [snd]. constructor; cbn [users notes]; try assumption.
  - now rewrite map_id_patched_notes.
  - intros n Hn. apply in_map_iff in Hn. destruct Hn as [m [<- Hm]].
    change (has_user ?x _) with (has_user x d).
    destruct (Note.id m =? id) eqn:Ehit; [|now apply Hfk].
    unfold patch_note. cbn [Note.userId].
    destruct (NotePatch.userId data) as [uid|]; [|now apply Hfk].
    assert (Hex : existsb (fun n => Note.id n =? id) (notes d) = true)
      by (apply existsb_exists; now exists m).
    rewrite Hex in Eorphan. cbn [andb] in Eorphan.
    now apply Bool.negb_false_iff in Eorphan.
Qed.

Lemma consistent_without_notes (p : Note.t -> bool) (d : Database) :
  consistent d -> consistent (without_notes p d).
Proof.
  intros [Hpk Hun Hnpk Hfk]. constructor; cbn [users notes without_notes];
    try assumption.
  - now apply distinct_keys_kept.
  - intros n Hn. apply filter_In in Hn. now apply Hfk.
Qed.

Lemma snd_bind_ret {A B} (m : Async A) (g : A -> B) (d : Database) :
  snd ((x <- m ;; ret (g x)) d) = snd (m d).
Proof. unfold bind, ret. now destruct (m d) as [[a|e] d']. Qed.

Lemma consistent_empty : consistent empty_database.
Proof. constructor; simpl; try constructor. intros n []. Qed.

(* ------------------------------------------------------------------ *)
(** ** Every state the process can reach *)

Lemma snd_via_index {A} (f : Async A) (p : Process) :
  snd (via_index f p)
  = {| index_db := snd (f (index_db p)); storage_db := storage_db p |}.
Proof. unfold via_index. now destruct (f (index_db p)). Qed.

Lemma snd_via_storage {A} (f : Async A) (p : Process) :
  snd (via_storage f p)
  = {| index_db := index_db p; storage_db := snd (f (storage_db p)) |}.
Proof. unfold via_storage. now destruct (f (storage_db p)). Qed.

(** The database a write leaves, statement by statement. *)
Lemma after_index_db (call : Write) (p : Process) :
  index_db (after call p)
  = match call with
    | createUser user => snd (insert_users user (index_db p))
    | updateUser id data => snd (update_users id data (index_db p))
    | deleteUser id => snd (delete_users CASCADE id (index_db p))
    | createNote note now => snd (insert_notes note now (index_db p))
    | updateNote id data => snd (update_notes id data (index_db p))
    | deleteNote id => without_notes (fun n => Note.id n =? id) (index_db p)
    | deleteUserNotes userId =>
        without_notes (fun n => Note.userId n =? userId) (index_db p)
    | storage_createUser _ | storage_createNote _ _ => index_db p
    end.
Proof.
  destruct call; cbn [after]; rewrite ?snd_via_index, ?snd_via_storage;
    cbn [index_db];
    unfold Crud.createUser, Crud.updateUser, Crud.deleteUser, Crud.createNote,
      Crud.updateNote, Crud.deleteNote, Crud.deleteUserNotes;
    rewrite ?snd_bind_ret; reflexivity.
Qed.

Lemma after_storage_db (call : Write) (p : Process) :
  storage_db (after call p)
  = match call with
    | storage_createUser user => snd (insert_users user (storage_db p))
    | storage_createNote note now => snd (insert_notes note now (storage_db p))
    | _ => storage_db p
    end.
Proof.
  destruct call; cbn [after]; rewrite ?snd_via_index, ?snd_via_storage;
    cbn [storage_db];
    unfold DrizzleStorage.createUser, DrizzleStorage.createNote;
    rewrite ?snd_bind_ret; reflexivity.
Qed.

Lemma after_consistent (call : Write) (p : Process) :
  consistent (index_db p) -> consistent (storage_db p) ->
  consistent (index_db (after call p))
  /\ consistent (storage_db (after call p)).
Proof.
  intros Hi Hs. rewrite after_index_db, after_storage_db.
  destruct call; split;
    auto using consistent_insert_users, consistent_update_users,
      consistent_delete_users, consistent_insert_notes,
      consistent_update_notes, consistent_without_notes.
Qed.

Lemma after_all_snoc (calls : list Write) (call : Write) (p : Process) :
  after_all (calls ++ [call]) p = after call (after_all calls p).
Proof. unfold after_all. now rewrite fold_left_app. Qed.

Lemma after_all_consistent (calls : list Write) :
  consistent (index_db (after_all calls boot))
  /\ consistent (storage_db (after_all calls boot)).
Proof.
  induction calls as [|call calls IH] using rev_ind.
  - split; apply consistent_empty.
  - rewrite after_all_snoc. destruct IH as [Hi Hs].
    now apply after_consistent.
Qed.

(** X1.  Whatever writes the process has performed since it started, in
    whatever order and whether they resolved or rejected, both databases
    satisfy the constraints their tables declare: user ids are distinct,
    usernames are distinct, note ids are distinct, and every note refers to
    a stored user. *)
Theorem X1_constraints_always_hold :
  forall calls : list Write,
    consistent (index_db (after_all calls boot))
    /\ consistent (storage_db (after_all calls boot)).
Proof. exact after_all_consistent. Qed.

(* ------------------------------------------------------------------ *)
(** ** Keys are handed out upwards *)

Lemma sequenced_empty : sequenced empty_database.
Proof. constructor; intros ? []. Qed.

Lemma sequenced_insert_users (v : InsertUser.t) (d : Database) :
  sequenced d -> sequenced (snd (insert_users v d)).
Proof.
  intros [Hu Hn]. unfold insert_users.
  destruct (has_username (InsertUser.username v) (users d));
    [now constructor|].
  cbn [snd]. constructor; cbn [users notes users_seq notes_seq User.id];
    [|assumption].
  intros u Hin. apply in_app_or in Hin.
  pose proof (next_rowid_above_seq (users_seq d) (map User.id (users d))).
  destruct Hin as [Hin|[<-|[]]]; [specialize (Hu u Hin); lia|].
  cbn [User.id]. lia.
Qed.

Lemma sequenced_insert_notes (v : InsertNote.t) (now : Z) (d : Database) :
  sequenced d -> sequenced (snd (insert_notes v now d)).
Proof.
  intros [Hu Hn]. unfold insert_notes.
  destruct (has_user (InsertNote.userId v) d); [|now constructor].
  cbn [snd]. constructor; cbn [users notes users_seq notes_seq Note.id];
    [assumption|].
  intros n Hin. apply in_app_or in Hin.
  pose proof (next_rowid_above_seq (notes_seq d) (map Note.id (notes d))).
  destruct Hin as [Hin|[<-|[]]]; [specialize (Hn n Hin); lia|].
  cbn [Note.id]. lia.
Qed.

Lemma sequenced_update_users (id : Z) (data : UserPatch.t) (d : Database) :
  sequenced d -> sequenced (snd (update_users id data d)).
Proof.
  intros Hs. pose proof Hs as [Hu Hn]. unfold update_users.
  destruct (user_patch_is_empty data); [assumption|].
  match goal with |- context [if ?c then _ else _] => destruct c end;
    [assumption|].
  cbn [snd]. constructor; cbn [users notes users_seq notes_seq];
    [|assumption].
  intros u Hin. apply in_map_iff in Hin. destruct Hin as [x [<- Hx]].
  specialize (Hu x Hx). now destruct (User.id x =? id).
Qed.

Lemma sequenced_update_notes (id : Z) (data : NotePatch.t) (d : Database) :
  sequenced d -> sequenced (snd (update_notes id data d)).
Proof.
  intros Hs. pose proof Hs as [Hu Hn]. unfold update_notes.
  destruct (note_patch_is_empty data); [assumption|].
  match goal with |- context [if ?c then _ else _] => destruct c end;
    [assumption|].
  cbn [snd]. constructor; cbn [users notes users_seq notes_seq];
    [assumption|].
  intros n Hin. apply in_map_iff in Hin. destruct Hin as [x [<- Hx]].
  specialize (Hn x Hx). now destruct (Note.id x =? id).
Qed.

Lemma sequenced_delete_users (id : Z) (d : Database) :
  sequenced d -> sequenced (snd (delete_users CASCADE id d)).
Proof.
  intros [Hu Hn]. unfold delete_users. cbn [snd].
  constructor; cbn [users notes users_seq notes_seq].
  - intros u Hin. apply filter_In in Hin. now apply Hu.
  - intros n Hin. apply filter_In in Hin. now apply Hn.
Qed.

Lemma sequenced_without_notes (p : Note.t -> bool) (d : Database) :
  sequenced d -> sequenced (without_notes p d).
Proof.
  intros [Hu Hn]. constructor;
    cbn [users notes users_seq notes_seq without_notes]; [assumption|].
  intros n Hin. apply filter_In in Hin. now apply Hn.
Qed.

Lemma after_sequenced (call : Write) (p : Process) :
  sequenced (index_db p) -> sequenced (storage_db p) ->
  sequenced (index_db (after call p))
  /\ sequenced (storage_db (after call p)).
Proof.
  intros Hi Hs. rewrite after_index_db, after_storage_db.
  destruct call; split;
    auto using sequenced_insert_users, sequenced_update_users,
      sequenced_delete_users, sequenced_insert_notes,
      sequenced_update_notes, sequenced_without_notes.
Qed.

Lemma after_all_sequenced (calls : list Write) :
  sequenced (index_db (after_all calls boot))
  /\ sequenced (storage_db (after_all calls boot)).
Proof.
  induction calls as [|call calls IH] using rev_ind.
  - split; apply sequenced_empty.
  - rewrite after_all_snoc. destruct IH as [Hi Hs].
    now apply after_sequenced.
Qed.

(** X2.  A deleted user's id is not given out again: in any state the
    process has reached, if a stored user is deleted and a user is then
    created, the new row's id is larger than the deleted user's id, and
    larger than the id of every user still stored. *)
Theorem X2_user_ids_are_not_reused :
  forall (calls : list Write) (u : User.t) (user : InsertUser.t)
         (row : User.t) (d' : Database),
    In u (users (index_db (after_all calls boot))) ->
    Crud.createUser user
      (snd (Crud.deleteUser (User.id u) (index_db (after_all calls boot))))
    = (Resolved (Some row), d') ->
    User.id u < User.id row
    /\ (forall w, In w (users d') -> w = row \/ User.id w < User.id row).
Proof.
  intros calls u user row d' Hu Hcreate.
  destruct (after_all_sequenced calls) as [[Hbound _] _].
  set (d := index_db (after_all calls boot)) in *.
  unfold Crud.deleteUser in Hcreate. rewrite snd_bind_ret in Hcreate.
  unfold Crud.createUser, bind, ret in Hcreate.
  destruct (insert_users user (snd (delete_users notes_user_id_on_delete
                                                 (User.id u) d)))
    as [[rows|e] d1] eqn:E; [|discriminate].
  injection Hcreate as Hrow <-.
  apply insert_users_resolved in E.
  destruct E as [row' [-> [Hrow' [Husers _]]]].
  cbn [Crud.first hd_error] in Hrow. injection Hrow as ->.
  pose proof (next_rowid_above_seq
                (users_seq (snd (delete_users notes_user_id_on_delete
                                              (User.id u) d)))
                (map User.id
                     (users (snd (delete_users notes_user_id_on_delete
                                               (User.id u) d))))) as Hnext.
  assert (Hid : User.id row
                = next_rowid
                    (users_seq (snd (delete_users notes_user_id_on_delete
                                                  (User.id u) d)))
                    (map User.id
                         (users (snd (delete_users notes_user_id_on_delete
                                                   (User.id u) d)))))
    by (rewrite Hrow'; reflexivity).
  rewrite <- Hid in Hnext.
  change (users_seq (snd (delete_users notes_user_id_on_delete (User.id u) d)))
    with (users_seq d) in Hnext.
  split.
  - specialize (Hbound u Hu). lia.
  - intros w Hw. rewrite Husers in Hw. apply in_app_or in Hw.
    destruct Hw as [Hw|[<-|[]]]; [right|now left].
    cbn [snd delete_users notes_user_id_on_delete users] in Hw.
    apply filter_In in Hw. destruct Hw as [Hw _].
    specialize (Hbound w Hw). lia.
Qed.

Lemma X2_user_ids_are_not_reused_witness :
  User.id janedoe
  < User.id {| User.id := 3; User.username := "janedoe";
               User.password := "again" |}.
Proof.
  apply (X2_user_ids_are_not_reused
           [createUser new_johndoe;
            createUser {| InsertUser.username := "janedoe";
                          InsertUser.password := "password456" |}]
           janedoe
           {| InsertUser.username := "janedoe"; InsertUser.password := "again" |}
           {| User.id := 3; User.username := "janedoe";
              User.password := "again" |}
           (snd (Crud.createUser
                   {| InsertUser.username := "janedoe";
                      InsertUser.password := "again" |}
                   (snd (Crud.deleteUser 2
                           (index_db
                              (after_all
                                 [createUser new_johndoe;
                                  createUser
                                    {| InsertUser.username := "janedoe";
                                       InsertUser.password := "password456" |}]
                                 boot))))))).
  - simpl. right. left. reflexivity.
  - reflexivity.
Defined.

(* ------------------------------------------------------------------ *)
(** ** Creating rows *)

(** X3.  [createUser] settles in one of two ways, decided by whether the
    username is already stored.  If it is, the call rejects with the
    UNIQUE-constraint error and the database is as before.  If it is not,
    the call resolves with a row that carries the given username and
    password and an id no stored user has; the row is appended to the
    users, every earlier user and every note is kept, and [getUserById] of
    the new id resolves with that row. *)
Theorem X3_createUser_settles :
  forall (d : Database) (user : InsertUser.t),
    (In (InsertUser.username user) (map User.username (users d))
     /\ Crud.createUser user d = (Rejected unique_users_username, d))
    \/ (~ In (InsertUser.username user) (map User.username (users d))
        /\ exists row d',
             Crud.createUser user d = (Resolved (Some row), d')
             /\ User.username row = InsertUser.username user
             /\ User.password row = InsertUser.password user
             /\ ~ In (User.id row) (map User.id (users d))
             /\ users d' = users d ++ [row]
             /\ notes d' = notes d
             /\ fst (Crud.getUserById (User.id row) d')
                = Resolved (Some row)).
Proof.
  intros d user.
  destruct (has_username (InsertUser.username user) (users d)) eqn:E.
  - left. split; [now apply has_username_iff|].
    unfold Crud.createUser, bind, insert_users. now rewrite E.
  - right. split.
    { intros Hin. apply has_username_iff in Hin. congruence. }
    destruct (Crud.createUser user d) as [r d'] eqn:Hc.
    assert (Hres : exists row, r = Resolved (Some row)).
    { unfold Crud.createUser, bind, insert_users, ret in Hc.
      rewrite E in Hc. injection Hc as <- <-. eexists. reflexivity. }
    destruct Hres as [row ->]. exists row, d'. split; [reflexivity|].
    pose proof (created_user_is_read user d d' row Hc) as [Hread _].
    apply createUser_resolved in Hc.
    destruct Hc as [row' [Er [Hn [Hp [Hu [Hnotes [Hfresh _]]]]]]].
    injection Er as <-. repeat split; assumption.
Qed.

(** X4.  [createNote] settles in one of two ways, decided by whether a user
    with the given [userId] is stored.  If none is, the call rejects with
    the foreign-key error and the database is as before.  If one is, the
    call resolves with a row that has the given title, content and userId,
    [isImportant] as given or [false] when it was left out, [createdAt] the
    call's time in whole seconds, and an id no stored note has; the row is
    appended to the notes, users are untouched, and [getNoteById] of the new
    id resolves with that row. *)
Theorem X4_createNote_settles :
  forall (d : Database) (note : InsertNote.t) (now : Z),
    ((forall u, In u (users d) -> User.id u <> InsertNote.userId note)
     /\ Crud.createNote note now d = (Rejected foreign_key_failed, d))
    \/ ((exists u, In u (users d) /\ User.id u = InsertNote.userId note)
        /\ exists row d',
             Crud.createNote note now d = (Resolved (Some row), d')
             /\ Note.title row = InsertNote.title note
             /\ Note.content row = InsertNote.content note
             /\ Note.userId row = InsertNote.userId note
             /\ Note.isImportant row
                = match InsertNote.isImportant note with
                  | Some b => b
                  | None => false
                  end
             /\ Note.createdAt row = now / 1000
             /\ ~ In (Note.id row) (map Note.id (notes d))
             /\ notes d' = notes d ++ [row]
             /\ users d' = users d
             /\ fst (Crud.getNoteById (Note.id row) d')
                = Resolved (Some row)).
Proof.
  intros d note now.
  destruct (has_user (InsertNote.userId note) d) eqn:E.
  - right. split; [now apply has_user_iff|].
    unfold Crud.createNote, bind, insert_notes, ret. rewrite E.
    set (row := {| Note.id := next_rowid (notes_seq d) (map Note.id (notes d));
                   Note.title := InsertNote.title note;
                   Note.content := InsertNote.content note;
                   Note.isImportant := match InsertNote.isImportant note with
                                       | Some b => b | None => false end;
                   Note.userId := InsertNote.userId note;
                   Note.createdAt := now / 1000 |}).
    assert (Hfresh : ~ In (Note.id row) (map Note.id (notes d)))
      by apply next_rowid_fresh.
    exists row. eexists. split; [reflexivity|].
    do 5 (split; [reflexivity|]). split; [exact Hfresh|].
    do 2 (split; [reflexivity|]).
    unfold Crud.getNoteById, bind, select_notes, ret. cbn [notes fst].
    now rewrite (created_note_lookup d row Hfresh).
  - left. split.
    + intros u Hu Hid.
      assert (Ht : has_user (InsertNote.userId note) d = true)
        by (apply has_user_iff; now exists u).
      congruence.
    + unfold Crud.createNote, bind, insert_notes. now rewrite E.
Qed.

(* ------------------------------------------------------------------ *)
(** ** Ids that are not there *)

Lemma no_hit_users (id : Z) (us : list User.t) :
  (forall u, In u us -> User.id u <> id) ->
  forall u, In u us -> (User.id u =? id) = false.
Proof. intros H u Hu. apply Z.eqb_neq. now apply H. Qed.

Lemma no_hit_notes (id : Z) (ns : list Note.t) :
  (forall n, In n ns -> Note.id n <> id) ->
  forall n, In n ns -> (Note.id n =? id) = false.
Proof. intros H n Hn. apply Z.eqb_neq. now apply H. Qed.

Lemma existsb_none {A} (p : A -> bool) (l : list A) :
  (forall x, In x l -> p x = false) -> existsb p l = false.
Proof.
  induction l as [|x l IH]; simpl; intros H; [reflexivity|].
  rewrite (H x) by now left. apply IH. intros y Hy. apply H. now right.
Qed.

Lemma filter_negb_none {A} (p : A -> bool) (l : list A) :
  (forall x, In x l -> p x = false) -> filter (fun x => negb (p x)) l = l.
Proof.
  intros H. apply filter_all. intros x Hx. now rewrite (H x Hx).
Qed.

(** X5.  An update or a delete aimed at an id that no row has is no error
    and changes nothing: with fields to set, [updateUser] and [updateNote]
    resolve with [null], and so do [deleteUser] and [deleteNote]; the
    database is afterwards what it was before. *)
Theorem X5_missing_id_is_null :
  forall (d : Database) (id : Z),
    ((forall u, In u (users d) -> User.id u <> id) ->
     (forall data, user_patch_is_empty data = false ->
                   Crud.updateUser id data d = (Resolved None, d))
     /\ Crud.deleteUser id d = (Resolved None, d))
    /\ ((forall n, In n (notes d) -> Note.id n <> id) ->
        (forall data, note_patch_is_empty data = false ->
                      Crud.updateNote id data d = (Resolved None, d))
        /\ Crud.deleteNote id d = (Resolved None, d)).
Proof.
  intros d id. split.
  - intros Hnone. pose proof (no_hit_users id (users d) Hnone) as Hhit.
    split.
    + intros data Hdata.
      unfold Crud.updateUser, bind, ret, update_users. rewrite Hdata.
      rewrite (existsb_none _ _ Hhit). cbn [andb].
      replace (match UserPatch.username data with
               | Some _ => false | None => false end) with false
        by now destruct (UserPatch.username data).
      rewrite (filter_none _ _ Hhit), (map_step_no_hit _ _ _ Hhit).
      now destruct d.
    + unfold Crud.deleteUser, bind, ret, notes_user_id_on_delete, delete_users.
      rewrite (filter_none _ _ Hhit), (filter_negb_none _ _ Hhit).
      cbn [existsb negb].
      rewrite (filter_all (fun _ : Note.t => true)) by reflexivity.
      now destruct d.
  - intros Hnone. pose proof (no_hit_notes id (notes d) Hnone) as Hhit.
    split.
    + intros data Hdata.
      unfold Crud.updateNote, bind, ret, update_notes. rewrite Hdata.
      rewrite (existsb_none _ _ Hhit). cbn [andb].
      replace (match NotePatch.userId data with
               | Some _ => false | None => false end) with false
        by now destruct (NotePatch.userId data).
      rewrite (filter_none _ _ Hhit), (map_step_no_hit _ _ _ Hhit).
      now destruct d.
    + unfold Crud.deleteNote, bind, ret, delete_notes_returning, without_notes.
      rewrite (filter_none _ _ Hhit), (filter_negb_none _ _ Hhit).
      now destruct d.
Qed.

Lemma X5_missing_id_is_null_witness :
  Crud.updateUser 7 {| UserPatch.username := Some "ghost"%string;
                       UserPatch.password := None |} (seeded 1700000000)
  = (Resolved None, seeded 1700000000)
  /\ Crud.deleteUser 7 (seeded 1700000000) = (Resolved None, seeded 1700000000)
  /\ Crud.updateNote 7 mark_important (seeded 1700000000)
     = (Resolved None, seeded 1700000000)
  /\ Crud.deleteNote 7 (seeded 1700000000)
     = (Resolved None, seeded 1700000000).
Proof.
  destruct (X5_missing_id_is_null (seeded 1700000000) 7) as [Hu Hn].
  destruct Hu as [Hupd Hdel].
  { intros u [<-|[<-|[]]]; discriminate. }
  destruct Hn as [Hupdn Hdeln].
  { intros n [<-|[<-|[<-|[]]]]; discriminate. }
  split; [apply Hupd; reflexivity|]. split; [exact Hdel|].
  split; [apply Hupdn; reflexivity|exact Hdeln].
Defined.

(* ------------------------------------------------------------------ *)
(** ** Updating and deleting a stored row *)

Section PatchedTable.

Context {A : Type} (key : A -> Z) (f : A -> A).

Lemma patched_table_In (x : A) (l : list A) :
  NoDup (map key l) -> In x l ->
  forall m,
    In m (map (fun y => if key y =? key x then f y else y) l)
    <-> m = f x \/ (In m l /\ key m <> key x).
Proof.
  intros Hnd Hx m.
  pose proof (filter_key_unique key Z.eqb Z.eqb_eq x l Hnd Hx) as Hone.
  rewrite map_step_In. split.
  - intros [y [Hy ->]]. destruct (key y =? key x) eqn:E.
    + left. f_equal.
      assert (Hin : In y (filter (fun z => key z =? key x) l))
        by (apply filter_In; now split).
      rewrite Hone in Hin. destruct Hin as [<-|[]]. reflexivity.
    + right. split; [assumption|]. now apply Z.eqb_neq.
  - intros [-> | [Hm Hne]].
    + exists x. split; [assumption|]. now rewrite Z.eqb_refl.
    + exists m. split; [assumption|]. apply Z.eqb_neq in Hne.
      now rewrite Hne.
Qed.

End PatchedTable.

(** X6.  [updateUser] on a stored user, in a database that satisfies its
    constraints and with at least one field to set: if the new username
    belongs to another user the call rejects with the UNIQUE-constraint
    error and nothing is stored; otherwise it resolves with the user in
    which exactly the supplied fields are overwritten (the id never), that
    row replaces the old one, every other user is as before and so are the
    notes. *)
Theorem X6_updateUser_partial :
  forall (d : Database) (u : User.t) (data : UserPatch.t),
    consistent d ->
    In u (users d) ->
    user_patch_is_empty data = false ->
    ((exists s w, UserPatch.username data = Some s
                  /\ In w (users d) /\ User.id w <> User.id u
                  /\ User.username w = s) ->
     Crud.updateUser (User.id u) data d = (Rejected unique_users_username, d))
    /\ ((forall s w, UserPatch.username data = Some s ->
                     In w (users d) -> User.id w <> User.id u ->
                     User.username w <> s) ->
        exists u' d',
          Crud.updateUser (User.id u) data d = (Resolved (Some u'), d')
          /\ u' = {| User.id := User.id u;
                     User.username := match UserPatch.username data with
                                      | Some s => s
                                      | None => User.username u
                                      end;
                     User.password := match UserPatch.password data with
                                      | Some s => s
                                      | None => User.password u
                                      end |}
          /\ (forall w, In w (users d')
                        <-> w = u' \/ (In w (users d)
                                       /\ User.id w <> User.id u))
          /\ notes d' = notes d).
Proof.
  intros d u data Hc Hu Hdata.
  pose proof (filter_key_unique User.id Z.eqb Z.eqb_eq u (users d)
                (users_pk d Hc) Hu) as Hone.
  assert (Hex : existsb (fun w => User.id w =? User.id u) (users d) = true).
  { apply existsb_exists. exists u. split; [assumption|apply Z.eqb_refl]. }
  unfold Crud.updateUser, bind, ret, update_users. rewrite Hdata, Hex.
  cbn [andb]. split.
  - intros [s [w [Hs [Hw [Hne <-]]]]]. rewrite Hs.
    replace (has_username (User.username w)
               (filter (fun u0 => negb (User.id u0 =? User.id u)) (users d)))
      with true; [reflexivity|].
    symmetry. apply has_username_iff. apply in_map. apply filter_In.
    split; [assumption|]. now apply Bool.negb_true_iff, Z.eqb_neq.
  - intros Hfree.
    replace (match UserPatch.username data with
             | Some s =>
                 has_username s
                   (filter (fun u0 => negb (User.id u0 =? User.id u)) (users d))
             | None => false
             end) with false.
    + rewrite Hone. cbn [map Crud.first hd_error].
      eexists. eexists. split; [reflexivity|]. split; [reflexivity|].
      split; [|reflexivity]. cbn [users].
      apply (patched_table_In User.id (patch_user data) u (users d)
                              (users_pk d Hc) Hu).
    + destruct (UserPatch.username data) as [s|]; [|reflexivity].
      symmetry. apply Bool.not_true_is_false. intros Hin.
      apply has_username_iff, in_map_iff in Hin.
      destruct Hin as [w [Hname Hw]]. apply filter_In in Hw.
      destruct Hw as [Hw Hne]. apply Bool.negb_true_iff, Z.eqb_neq in Hne.
      exact (Hfree s w eq_refl Hw Hne Hname).
Qed.

Lemma X6_updateUser_partial_witness :
  Crud.updateUser 1 {| UserPatch.username := Some "janedoe"%string;
                       UserPatch.password := None |} (seeded 1700000000)
  = (Rejected unique_users_username, seeded 1700000000)
  /\ exists u' d',
       Crud.updateUser 1 {| UserPatch.username := None;
                            UserPatch.password := Some "s3cret"%string |}
                       (seeded 1700000000)
       = (Resolved (Some u'), d')
       /\ u' = {| User.id := 1; User.username := "johndoe";
                  User.password := "s3cret" |}.
Proof.
  split.
  - apply (X6_updateUser_partial
             (seeded 1700000000) johndoe
             {| UserPatch.username := Some "janedoe"%string;
                UserPatch.password := None |}).
    + apply consistent_seeded.
    + simpl. left. reflexivity.
    + reflexivity.
    + exists "janedoe"%string, janedoe. repeat split.
      * simpl. right. left. reflexivity.
      * discriminate.
  - destruct (X6_updateUser_partial
                (seeded 1700000000) johndoe
                {| UserPatch.username := None;
                   UserPatch.password := Some "s3cret"%string |})
      as [_ H].
    + apply consistent_seeded.
    + simpl. left. reflexivity.
    + reflexivity.
    + destruct H as [u' [d' [H1 [H2 _]]]].
      * intros s w Hs. discriminate.
      * exists u', d'. split; assumption.
Defined.

(** X7.  [updateNote] on a stored note, in a database that satisfies its
    constraints and with at least one field to set: if the new [userId] is
    the id of no user the call rejects with the foreign-key error and
    nothing is stored; otherwise it resolves with the note in which exactly
    the supplied fields are overwritten, the id and [createdAt] being
    always those of the stored note; that row replaces the old one, every
    other note is as before and so are the users. *)
Theorem X7_updateNote_partial :
  forall (d : Database) (n : Note.t) (data : NotePatch.t),
    consistent d ->
    In n (notes d) ->
    note_patch_is_empty data = false ->
    ((exists uid, NotePatch.userId data = Some uid
                  /\ forall u, In u (users d) -> User.id u <> uid) ->
     Crud.updateNote (Note.id n) data d = (Rejected foreign_key_failed, d))
    /\ ((forall uid, NotePatch.userId data = Some uid ->
                     exists u, In u (users d) /\ User.id u = uid) ->
        exists n' d',
          Crud.updateNote (Note.id n) data d = (Resolved (Some n'), d')
          /\ n' = {| Note.id := Note.id n;
                     Note.title := match NotePatch.title data with
                                   | Some s => s | None => Note.title n end;
                     Note.content := match NotePatch.content data with
                                     | Some s => s | None => Note.content n end;
                     Note.isImportant :=
                       match NotePatch.isImportant data with
                       | Some b => b | None => Note.isImportant n end;
                     Note.userId := match NotePatch.userId data with
                                    | Some i => i | None => Note.userId n end;
                     Note.createdAt := Note.createdAt n |}
          /\ (forall m, In m (notes d')
                        <-> m = n' \/ (In m (notes d)
                                       /\ Note.id m <> Note.id n))
          /\ users d' = users d).
Proof.
  intros d n data Hc Hn Hdata.
  pose proof (filter_key_unique Note.id Z.eqb Z.eqb_eq n (notes d)
                (notes_pk d Hc) Hn) as Hone.
  assert (Hex : existsb (fun m => Note.id m =? Note.id n) (notes d) = true).
  { apply existsb_exists. exists n. split; [assumption|apply Z.eqb_refl]. }
  unfold Crud.updateNote, bind, ret, update_notes. rewrite Hdata, Hex.
  cbn [andb]. split.
  - intros [uid [Huid Hnone]]. rewrite Huid.
    replace (has_user uid d) with false; [reflexivity|].
    symmetry. apply Bool.not_true_is_false. intros Hin.
    apply has_user_iff in Hin. destruct Hin as [u [Hu E]].
    exact (Hnone u Hu E).
  - intros Hfk.
    replace (match NotePatch.userId data with
             | Some uid => negb (has_user uid d)
             | None => false
             end) with false.
    + rewrite Hone. cbn [map Crud.first hd_error].
      eexists. eexists. split; [reflexivity|]. split; [reflexivity|].
      split; [|reflexivity]. cbn [notes].
      apply (patched_table_In Note.id (patch_note data) n (notes d)
                              (notes_pk d Hc) Hn).
    + destruct (NotePatch.userId data) as [uid|]; [|reflexivity].
      symmetry. apply Bool.negb_false_iff, has_user_iff. now apply Hfk.
Qed.

Lemma X7_updateNote_partial_witness :
  Crud.updateNote 3 {| NotePatch.title := None; NotePatch.content := None;
                       NotePatch.isImportant := None;
                       NotePatch.userId := Some 9 |} (seeded 1700000000)
  = (Rejected foreign_key_failed, seeded 1700000000).
Proof.
  apply (X7_updateNote_partial
           (seeded 1700000000) (my_first_note 1700000000)
           {| NotePatch.title := None; NotePatch.content := None;
              NotePatch.isImportant := None; NotePatch.userId := Some 9 |}).
  - apply consistent_seeded.
  - simpl. right. right. left. reflexivity.
  - reflexivity.
  - exists 9. split; [reflexivity|].
    intros u [<-|[<-|[]]]; discriminate.
Defined.

Lemma filter_filter_implied {A} (p q : A -> bool) (l : list A) :
  (forall x, p x = true -> q x = true) ->
  filter p (filter q l) = filter p l.
Proof.
  intros H. induction l as [|x l IH]; [reflexivity|]. simpl.
  destruct (q x) eqn:Eq; simpl; [now rewrite IH|].
  destruct (p x) eqn:Ep; [|assumption].
  rewrite (H x Ep) in Eq. discriminate.
Qed.

(** X8.  [deleteNote] on a stored note, in a database that satisfies its
    constraints, resolves with that very note and removes it and nothing
    else: the other notes stay, in their order, and the users are
    untouched. *)
Theorem X8_deleteNote_exact :
  forall (d : Database) (n : Note.t),
    consistent d ->
    In n (notes d) ->
    exists d',
      Crud.deleteNote (Note.id n) d = (Resolved (Some n), d')
      /\ notes d' = filter (fun m => negb (Note.id m =? Note.id n)) (notes d)
      /\ (forall m, In m (notes d') <-> In m (notes d) /\ m <> n)
      /\ users d' = users d.
Proof.
  intros d n Hc Hn.
  pose proof (filter_key_unique Note.id Z.eqb Z.eqb_eq n (notes d)
                (notes_pk d Hc) Hn) as Hone.
  unfold Crud.deleteNote, bind, ret, delete_notes_returning.
  rewrite Hone. eexists. split; [reflexivity|].
  cbn [notes users without_notes]. split; [reflexivity|].
  split; [|reflexivity].
  intros m. rewrite filter_In, Bool.negb_true_iff, Z.eqb_neq. split.
  - intros [Hm Hne]. split; [assumption|]. congruence.
  - intros [Hm Hne]. split; [assumption|]. intros E. apply Hne.
    assert (Hin : In m (filter (fun y => Note.id y =? Note.id n) (notes d))).
    { apply filter_In. split; [assumption|]. now apply Z.eqb_eq. }
    rewrite Hone in Hin. destruct Hin as [<-|[]]. reflexivity.
Qed.

Lemma X8_deleteNote_exact_witness :
  exists d',
    Crud.deleteNote 2 (seeded 1700000000)
    = (Resolved (Some (sqlite_setup 1700000000)), d')
    /\ notes d' = filter (fun m => negb (Note.id m =? 2))
                         (notes (seeded 1700000000))
    /\ (forall m, In m (notes d')
                  <-> In m (notes (seeded 1700000000))
                      /\ m <> sqlite_setup 1700000000)
    /\ users d' = users (seeded 1700000000).
Proof.
  apply (X8_deleteNote_exact (seeded 1700000000) (sqlite_setup 1700000000)).
  - apply consistent_seeded.
  - simpl. right. left. reflexivity.
Defined.

(** X9.  [deleteUser] on a stored user, in a database that satisfies its
    constraints, resolves with that very user; no other user is removed,
    and a note is removed only if it belonged to the deleted user, so
    every other user still has all of their notes. *)
Theorem X9_deleteUser_spares_the_others :
  forall (d : Database) (u : User.t),
    consistent d ->
    In u (users d) ->
    exists d',
      Crud.deleteUser (User.id u) d = (Resolved (Some u), d')
      /\ (forall w, In w (users d') <-> In w (users d) /\ w <> u)
      /\ (forall w, In w (users d') ->
                    fst (Crud.getNotesByUserId (User.id w) d')
                    = fst (Crud.getNotesByUserId (User.id w) d)).
Proof.
  intros d u Hc Hu.
  pose proof (filter_key_unique User.id Z.eqb Z.eqb_eq u (users d)
                (users_pk d Hc) Hu) as Hone.
  unfold Crud.deleteUser, bind, ret, notes_user_id_on_delete, delete_users.
  rewrite Hone. eexists. split; [reflexivity|]. cbn [users notes].
  assert (Husers : forall w,
             In w (filter (fun u0 => negb (User.id u0 =? User.id u)) (users d))
             <-> In w (users d) /\ w <> u).
  { intros w. rewrite filter_In, Bool.negb_true_iff, Z.eqb_neq. split.
    - intros [Hw Hne]. split; [assumption|]. congruence.
    - intros [Hw Hne]. split; [assumption|]. intros E. apply Hne.
      assert (Hin : In w (filter (fun y => User.id y =? User.id u) (users d))).
      { apply filter_In. split; [assumption|]. now apply Z.eqb_eq. }
      rewrite Hone in Hin. destruct Hin as [<-|[]]. reflexivity. }
  split; [exact Husers|].
  intros w Hw. apply Husers in Hw. destruct Hw as [Hw Hne].
  unfold Crud.getNotesByUserId, select_notes. cbn [fst notes]. f_equal.
  assert (Hid : User.id w <> User.id u).
  { intros E. apply Hne.
    assert (Hin : In w (filter (fun y => User.id y =? User.id u) (users d))).
    { apply filter_In. split; [assumption|]. now apply Z.eqb_eq. }
    rewrite Hone in Hin. destruct Hin as [<-|[]]. reflexivity. }
  apply filter_filter_implied. intros n E. apply Z.eqb_eq in E.
  cbn [existsb]. rewrite Bool.orb_false_r. apply Bool.negb_true_iff.
  apply Z.eqb_neq. congruence.
Qed.

Lemma X9_deleteUser_spares_the_others_witness :
  exists d',
    Crud.deleteUser 1 (seeded 1700000000) = (Resolved (Some johndoe), d')
    /\ (forall w, In w (users d')
                  <-> In w (users (seeded 1700000000)) /\ w <> johndoe)
    /\ (forall w, In w (users d') ->
                  fst (Crud.getNotesByUserId (User.id w) d')
                  = fst (Crud.getNotesByUserId (User.id w)
                                               (seeded 1700000000))).
Proof.
  apply (X9_deleteUser_spares_the_others (seeded 1700000000) johndoe).
  - apply consistent_seeded.
  - simpl. left. reflexivity.
Defined.

(* ------------------------------------------------------------------ *)
(** ** Reading in a reachable state *)

(** X10.  In any state the process has reached, asking for the notes of an
    id that no user has resolves with the empty sequence: there are no
    notes left behind by deleted users. *)
Theorem X10_no_notes_without_user :
  forall (calls : list Write) (userId : Z),
    (forall u, In u (users (index_db (after_all calls boot))) ->
               User.id u <> userId) ->
    fst (perform (getNotesByUserId userId) (after_all calls boot))
    = Resolved [].
Proof.
  intros calls userId Hnone.
  destruct (after_all_consistent calls) as [Hc _].
  cbn [perform]. rewrite fst_via_index.
  unfold Crud.getNotesByUserId, select_notes. cbn [fst]. f_equal.
  apply filter_none. intros n Hn. apply Z.eqb_neq. intros E.
  pose proof (notes_fk _ Hc n Hn) as Hfk. apply has_user_iff in Hfk.
  destruct Hfk as [u [Hu Hid]]. apply (Hnone u Hu). congruence.
Qed.

Lemma X10_no_notes_without_user_witness :
  fst (perform (getNotesByUserId 1)
         (after_all [createUser new_johndoe;
                     createNote {| InsertNote.title := "t";
                                   InsertNote.content := "c";
                                   InsertNote.isImportant := None;
                                   InsertNote.userId := 1 |} 1700000000000;
                     deleteUser 1] boot))
  = Resolved [].
Proof.
  apply (X10_no_notes_without_user
           [createUser new_johndoe;
            createNote {| InsertNote.title := "t";
                          InsertNote.content := "c";
                          InsertNote.isImportant := None;
                          InsertNote.userId := 1 |} 1700000000000;
            deleteUser 1] 1).
  intros u Hu. vm_compute in Hu. destruct Hu.
Defined.

(* ------------------------------------------------------------------ *)
(** ** The join under referential integrity *)

Lemma inner_join_notes (d : Database) :
  consistent d -> map fst (inner_join (notes d) (users d)) = notes d.
Proof.
  intros Hc. unfold inner_join.
  assert (Hfk : forall n, In n (notes d) -> has_user (Note.userId n) d = true)
    by apply (notes_fk d Hc).
  induction (notes d) as [|n ns IH]; [reflexivity|].
  cbn [flat_map]. rewrite map_app, IH by (intros m Hm; apply Hfk; now right).
  specialize (Hfk n (or_introl eq_refl)). apply has_user_iff in Hfk.
  destruct Hfk as [u [Hu Hid]].
  assert (Hone : filter (fun w => Note.userId n =? User.id w) (users d) = [u]).
  { rewrite <- Hid.
    rewrite (filter_ext _ (fun y => User.id y =? User.id u))
      by (intros w; apply Z.eqb_sym).
    apply (filter_key_unique User.id Z.eqb Z.eqb_eq u (users d)
                             (users_pk d Hc) Hu). }
  rewrite Hone. reflexivity.
Qed.

(** X11.  In a database that satisfies its constraints [getNotesWithUsers]
    drops no note and repeats none: it resolves with as many rows as there
    are notes, and the note ids of the rows are a rearrangement of the ids
    of the stored notes. *)
Theorem X11_join_has_one_row_per_note :
  forall d : Database,
    consistent d ->
    exists rows,
      Queries.getNotesWithUsers d = (Resolved rows, d)
      /\ List.length rows = List.length (notes d)
      /\ Permutation
           (map (fun r => Queries.note_id (Queries.note r)) rows)
           (map Note.id (notes d)).
Proof.
  intros d Hc. eexists. split; [reflexivity|].
  pose proof (order_by_desc_perm (fun row => Note.createdAt (fst row))
                (inner_join (notes d) (users d))) as Hperm.
  split.
  - rewrite length_map, (Permutation_length Hperm).
    rewrite <- (inner_join_notes d Hc) at 2. now rewrite length_map.
  - rewrite map_map.
    rewrite (map_ext _ (fun row => Note.id (fst row)))
      by (intros [n u]; reflexivity).
    rewrite (Permutation_map _ Hperm).
    rewrite <- (inner_join_notes d Hc) at 2. now rewrite map_map.
Qed.

Lemma X11_join_has_one_row_per_note_witness :
  exists rows,
    Queries.getNotesWithUsers (seeded 1700000000)
    = (Resolved rows, seeded 1700000000)
    /\ List.length rows = List.length (notes (seeded 1700000000))
    /\ Permutation
         (map (fun r => Queries.note_id (Queries.note r)) rows)
         (map Note.id (notes (seeded 1700000000))).
Proof.
  apply (X11_join_has_one_row_per_note (seeded 1700000000)).
  apply consistent_seeded.
Defined.

(* ------------------------------------------------------------------ *)
(** ** Wildcards in the title query *)

Lemma patternCompare_any_run (text : string) :
  patternCompare "%%%" text = true.
Proof.
  induction text as [|c t IH].
  - reflexivity.
  - rewrite patternCompare_percent, IH. apply Bool.orb_true_r.
Qed.

Lemma patternCompare_any_one (text : string) :
  patternCompare "%_%" text = Queries.truthy text.
Proof.
  induction text as [|c t IH].
  - reflexivity.
  - rewrite patternCompare_percent. cbn [Queries.truthy].
    change (patternCompare "_%" (String c t)) with (patternCompare "%" t).
    now rewrite patternCompare_percent_only.
Qed.

(** X12.  The title query is put into the [LIKE] pattern as it is, so its
    wildcards act as wildcards: [searchNotes "%"] resolves with what
    [searchNotes ""] resolves with, all notes that pass the importance
    filter whatever their title, and [searchNotes "_"] resolves with the
    ones among these whose title, read up to its first NUL if it has one,
    is not empty. *)
Theorem X12_wildcards_in_title_query :
  forall (d : Database) (importantOnly : bool),
    Queries.searchNotes "%" importantOnly d
    = Queries.searchNotes "" importantOnly d
    /\ Queries.searchNotes "_" importantOnly d
       = (Resolved
            (order_by_desc Note.createdAt
               (filter (fun n => Queries.truthy (c_string (Note.title n))
                                 && (negb importantOnly || Note.isImportant n))
                       (notes d))),
          d).
Proof.
  intros d imp. rewrite !searchNotes_rows by (vm_compute; discriminate).
  split.
  - do 3 f_equal. apply filter_ext. intros n.
    cbn [Queries.truthy negb orb].
    change (c_string ("%" ++ "%" ++ "%")) with "%%%"%string.
    now rewrite patternCompare_any_run.
  - do 3 f_equal. apply filter_ext. intros n.
    cbn [Queries.truthy negb orb].
    change (c_string ("%" ++ "_" ++ "%")) with "%_%"%string.
    now rewrite patternCompare_any_one.
Qed.

(* ------------------------------------------------------------------ *)
(** ** Pages, together and at the edges *)







(* ------------------------------------------------------------------ *)
(** ** The case of the title query *)

Lemma to_lower_idem (c : ascii) : to_lower (to_lower c) = to_lower c.
Proof.
  destruct c as [[] [] [] [] [] [] [] []]; vm_compute; reflexivity.
Qed.

Lemma to_lower_percent (c : ascii) :
  Ascii.eqb (to_lower c) "%" = Ascii.eqb c "%".
Proof.
  destruct c as [[] [] [] [] [] [] [] []]; vm_compute; reflexivity.
Qed.

Lemma to_lower_underscore (c : ascii) :
  Ascii.eqb (to_lower c) "_" = Ascii.eqb c "_".
Proof.
  destruct c as [[] [] [] [] [] [] [] []]; vm_compute; reflexivity.
Qed.

Lemma to_lower_nul (c : ascii) :
  Ascii.eqb (to_lower c) "000" = Ascii.eqb c "000".
Proof.
  destruct c as [[] [] [] [] [] [] [] []]; vm_compute; reflexivity.
Qed.

Lemma to_lower_width (c : ascii) :
  (N_of_ascii (to_lower c) <? 128)%N = (N_of_ascii c <? 128)%N.
Proof.
  destruct c as [[] [] [] [] [] [] [] []]; vm_compute; reflexivity.
Qed.

Lemma patternCompare_lowercase (pattern : string) :
  forall text,
    patternCompare (lowercase pattern) text = patternCompare pattern text.
Proof.
  induction pattern as [|c p IH]; intros text; [reflexivity|].
  cbn [lowercase].
  destruct (Ascii.eqb c "%") eqn:Ep.
  - apply Ascii.eqb_eq in Ep. subst c.
    change (to_lower "%") with "%"%char.
    induction text as [|d t IHt].
    + rewrite !patternCompare_percent, IH. reflexivity.
    + rewrite (patternCompare_percent (lowercase p)),
        (patternCompare_percent p), IH, IHt.
      reflexivity.
  - cbn [patternCompare]. rewrite to_lower_percent, to_lower_underscore, Ep.
    destruct (Ascii.eqb c "_").
    + destruct text; [reflexivity|apply IH].
    + destruct text as [|d t]; [reflexivity|].
      unfold same_letter. now rewrite to_lower_idem, IH.
Qed.

Lemma c_string_lowercase (s : string) :
  c_string (lowercase s) = lowercase (c_string s).
Proof.
  induction s as [|c s IH]; [reflexivity|].
  cbn [lowercase c_string]. rewrite to_lower_nul.
  destruct (Ascii.eqb c "000"); [reflexivity|].
  cbn [lowercase]. now rewrite IH.
Qed.

Lemma utf8_length_lowercase (s : string) :
  utf8_length (lowercase s) = utf8_length s.
Proof.
  induction s as [|c s IH]; [reflexivity|].
  cbn [lowercase utf8_length]. now rewrite to_lower_width, IH.
Qed.

Lemma like_lowercase (pattern text : string) :
  like (lowercase pattern) text = like pattern text.
Proof.
  unfold like.
  now rewrite utf8_length_lowercase, c_string_lowercase,
    patternCompare_lowercase.
Qed.

Lemma lowercase_append (a b : string) :
  lowercase (a ++ b) = (lowercase a ++ lowercase b)%string.
Proof.
  induction a as [|c a IH]; [reflexivity|]. simpl. now rewrite IH.
Qed.

(** X15.  The search does not tell capitals from small letters in the
    query: a title query and the same query with its ASCII capitals made
    small resolve with the same notes in the same order. *)
Theorem X15_search_ignores_query_case :
  forall (d : Database) (titleQuery : string) (importantOnly : bool),
    Queries.searchNotes (lowercase titleQuery) importantOnly d
    = Queries.searchNotes titleQuery importantOnly d.
Proof.
  intros d q imp. unfold Queries.searchNotes.
  replace (Queries.truthy (lowercase q)) with (Queries.truthy q)
    by now destruct q.
  change ("%" ++ lowercase q ++ "%")%string
    with (lowercase "%" ++ lowercase q ++ lowercase "%")%string.
  rewrite <- !lowercase_append.
  destruct (Queries.truthy q), imp; cbn [app List.length Nat.ltb Nat.leb];
    try reflexivity;
    unfold select_notes_newest_first;
    match goal with
    | |- context [where_rows ?p (notes d)] =>
        match goal with
        | |- _ = match where_rows ?p' (notes d) with _ => _ end =>
            rewrite (where_rows_ext p p'); [reflexivity|]
        end
    end;
    intros n; cbn [Queries.and_ Queries.holds]; now rewrite like_lowercase.
Qed.

(* ------------------------------------------------------------------ *)
(** ** Seeding *)

Lemma filter_true {A} (l : list A) : filter (fun _ => true) l = l.
Proof. apply filter_all. reflexivity. Qed.

Lemma insert_users_fresh (v : InsertUser.t) (d : Database) :
  has_username (InsertUser.username v) (users d) = false ->
  exists row d',
    insert_users v d = (Resolved [row], d')
    /\ row = {| User.id := next_rowid (users_seq d) (map User.id (users d));
                User.username := InsertUser.username v;
                User.password := InsertUser.password v |}
    /\ users d' = users d ++ [row]
    /\ notes d' = notes d
    /\ users_seq d' = User.id row.
Proof.
  intros H. unfold insert_users. rewrite H. eexists. eexists.
  repeat split.
Qed.

Lemma insert_notes_owned (v : InsertNote.t) (t : Z) (d : Database) :
  has_user (InsertNote.userId v) d = true ->
  exists row d',
    insert_notes v t d = (Resolved [row], d')
    /\ row = {| Note.id := next_rowid (notes_seq d) (map Note.id (notes d));
                Note.title := InsertNote.title v;
                Note.content := InsertNote.content v;
                Note.isImportant := match InsertNote.isImportant v with
                                    | Some b => b | None => false end;
                Note.userId := InsertNote.userId v;
                Note.createdAt := t / 1000 |}
    /\ users d' = users d
    /\ notes d' = notes d ++ [row].
Proof.
  intros H. unfold insert_notes. rewrite H. eexists. eexists.
  repeat split.
Qed.

Lemma snd_of_eq {A B} (x : A * B) (a : A) (b : B) : x = (a, b) -> b = snd x.
Proof. now intros ->. Qed.

Lemma seed_skipped (d : Database) (t1 t2 t3 : Z) :
  users d <> [] -> Seed.seedDatabase t1 t2 t3 d = (Resolved tt, d).
Proof.
  intros Hne. unfold Seed.seedDatabase, try_catch, bind, select_users.
  rewrite filter_true. destruct (users d) as [|u us]; [contradiction|].
  reflexivity.
Qed.

Lemma seed_fresh (d : Database) (t1 t2 t3 : Z) :
  users d = [] ->
  exists u0 u1 n1 n2 n3 d',
    Seed.seedDatabase t1 t2 t3 d = (Resolved tt, d')
    /\ users d' = [u0; u1]
    /\ notes d' = notes d ++ [n1; n2; n3]
    /\ User.username u0 = "johndoe"%string
    /\ User.password u0 = "password123"%string
    /\ User.username u1 = "janedoe"%string
    /\ User.password u1 = "password456"%string
    /\ User.id u0 < User.id u1
    /\ Note.userId n1 = User.id u0
    /\ Note.userId n2 = User.id u0
    /\ Note.userId n3 = User.id u1
    /\ Note.isImportant n1 = true
    /\ Note.isImportant n2 = false
    /\ Note.isImportant n3 = false
    /\ Note.createdAt n1 = t1 / 1000
    /\ Note.createdAt n2 = t2 / 1000
    /\ Note.createdAt n3 = t3 / 1000
    /\ (consistent d -> consistent d').
Proof.
  intros Hempty.
  destruct (insert_users_fresh
              {| InsertUser.username := "johndoe";
                 InsertUser.password := "password123" |} d)
    as [u0 [d1 [H1 [Hu0 [Hus1 [Hns1 Hseq1]]]]]].
  { rewrite Hempty. reflexivity. }
  destruct (insert_users_fresh
              {| InsertUser.username := "janedoe";
                 InsertUser.password := "password456" |} d1)
    as [u1 [d2 [H2 [Hu1 [Hus2 [Hns2 _]]]]]].
  { rewrite Hus1, Hempty, Hu0. reflexivity. }
  rewrite Hempty in Hus1. cbn [app] in Hus1.
  rewrite Hus1 in Hus2. cbn [app] in Hus2.
  assert (Hlt : User.id u0 < User.id u1).
  { rewrite Hu1 at 1. cbn [User.id]. rewrite Hseq1.
    apply next_rowid_above_seq. }
  assert (Hown0 : forall d', users d' = [u0; u1] ->
                             has_user (User.id u0) d' = true).
  { intros d' E. unfold has_user. rewrite E. cbn [existsb].
    now rewrite Z.eqb_refl. }
  assert (Hown1 : forall d', users d' = [u0; u1] ->
                             has_user (User.id u1) d' = true).
  { intros d' E. unfold has_user. rewrite E. cbn [existsb].
    rewrite Z.eqb_refl. apply Bool.orb_true_iff. right. reflexivity. }
  destruct (insert_notes_owned
              {| InsertNote.title := "Getting Started with Drizzle";
                 InsertNote.content :=
                   "Drizzle ORM is a TypeScript ORM for SQL databases...";
                 InsertNote.isImportant := Some true;
                 InsertNote.userId := User.id u0 |} t1 d2)
    as [n1 [d3 [H3 [Hn1 [Hus3 Hns3]]]]].
  { now apply Hown0. }
  rewrite Hus2 in Hus3.
  destruct (insert_notes_owned
              {| InsertNote.title := "SQLite Setup";
                 InsertNote.content :=
                   "SQLite is a lightweight database that works great for development...";
                 InsertNote.isImportant := Some false;
                 InsertNote.userId := User.id u0 |} t2 d3)
    as [n2 [d4 [H4 [Hn2 [Hus4 Hns4]]]]].
  { now apply Hown0. }
  rewrite Hus3 in Hus4.
  destruct (insert_notes_owned
              {| InsertNote.title := "My First Note";
                 InsertNote.content :=
                   "This is a test note created by Jane Doe.";
                 InsertNote.isImportant := Some false;
                 InsertNote.userId := User.id u1 |} t3 d4)
    as [n3 [d5 [H5 [Hn3 [Hus5 Hns5]]]]].
  { now apply Hown1. }
  rewrite Hus4 in Hus5.
  exists u0, u1, n1, n2, n3, d5. split.
  - unfold Seed.seedDatabase, try_catch. f_equal.
    unfold bind at 1. unfold select_users at 1. rewrite Hempty.
    cbn [filter List.length Nat.eqb].
    unfold bind at 1. unfold insert_values at 1. unfold Seed.sample_users.
    cbn [insert_each]. unfold bind at 1. rewrite H1.
    unfold bind at 1. rewrite H2. cbn [ret].
    unfold bind at 1. unfold select_users at 1. rewrite filter_true, Hus2.
    cbn [List.length Nat.ltb Nat.leb nth_error].
    unfold bind at 1. unfold insert_values at 1. unfold Seed.sample_notes.
    cbn [insert_each fst snd]. unfold bind at 1. rewrite H3.
    unfold bind at 1. rewrite H4. unfold bind at 1. rewrite H5.
    reflexivity.
  - split; [exact Hus5|]. split.
    { rewrite Hns5, Hns4, Hns3, Hns2, Hns1, <- !app_assoc. reflexivity. }
    do 2 (split; [rewrite Hu0; reflexivity|]).
    do 2 (split; [rewrite Hu1; reflexivity|]).
    split; [exact Hlt|].
    split; [rewrite Hn1; reflexivity|].
    split; [rewrite Hn2; reflexivity|].
    split; [rewrite Hn3; reflexivity|].
    split; [rewrite Hn1; reflexivity|].
    split; [rewrite Hn2; reflexivity|].
    split; [rewrite Hn3; reflexivity|].
    split; [rewrite Hn1; reflexivity|].
    split; [rewrite Hn2; reflexivity|].
    split; [rewrite Hn3; reflexivity|].
    intros Hc.
    rewrite (snd_of_eq _ _ _ H5). apply consistent_insert_notes.
    rewrite (snd_of_eq _ _ _ H4). apply consistent_insert_notes.
    rewrite (snd_of_eq _ _ _ H3). apply consistent_insert_notes.
    rewrite (snd_of_eq _ _ _ H2). apply consistent_insert_users.
    rewrite (snd_of_eq _ _ _ H1). now apply consistent_insert_users.
Qed.

(** X16.  Seeding a database that has no users resolves and stores the two
    sample users, johndoe before janedoe, and after the notes already there
    the three sample notes: two of johndoe, the first of them important,
    and one of janedoe, each stamped with its own time in whole seconds.
    If there were no notes before, [getUserWithNotes] of johndoe's id then
    reports two notes, one of them important. *)
Theorem X16_seeding_an_empty_database :
  forall (d : Database) (t1 t2 t3 : Z),
    users d = [] ->
    exists u0 u1 n1 n2 n3 d',
      Seed.seedDatabase t1 t2 t3 d = (Resolved tt, d')
      /\ users d' = [u0; u1]
      /\ notes d' = notes d ++ [n1; n2; n3]
      /\ User.username u0 = "johndoe"%string
      /\ User.username u1 = "janedoe"%string
      /\ User.id u0 < User.id u1
      /\ map Note.userId [n1; n2; n3] = [User.id u0; User.id u0; User.id u1]
      /\ map Note.isImportant [n1; n2; n3] = [true; false; false]
      /\ map Note.createdAt [n1; n2; n3] = [t1 / 1000; t2 / 1000; t3 / 1000]
      /\ (notes d = [] ->
          exists r,
            fst (Queries.getUserWithNotes (User.id u0) d') = Resolved (Some r)
            /\ Queries.uwn_user r = u0
            /\ Queries.stats r
               = {| Queries.totalNotes := 2; Queries.importantNotes := 1 |}).
Proof.
  intros d t1 t2 t3 Hempty.
  destruct (seed_fresh d t1 t2 t3 Hempty)
    as [u0 [u1 [n1 [n2 [n3 [d' H]]]]]].
  destruct H as [Hseed [Hus [Hns [Hname0 [_ [Hname1 [_ [Hlt H]]]]]]]].
  destruct H as [U1 [U2 [U3 [I1 [I2 [I3 [C1 [C2 [C3 _]]]]]]]]].
  exists u0, u1, n1, n2, n3, d'.
  do 5 (split; [assumption|]). split; [exact Hlt|].
  cbn [map]. split; [now rewrite U1, U2, U3|].
  split; [now rewrite I1, I2, I3|]. split; [now rewrite C1, C2, C3|].
  intros Hnone. rewrite Hnone in Hns. cbn [app] in Hns.
  assert (Hne : (User.id u1 =? User.id u0) = false)
    by (apply Z.eqb_neq; lia).
  unfold Queries.getUserWithNotes, bind, select_users, select_notes, ret.
  rewrite Hus. cbn [filter]. rewrite Z.eqb_refl, Hne.
  cbn [Crud.first hd_error]. rewrite Hns. cbn [filter].
  rewrite U1, U2, U3, Z.eqb_refl, Hne.
  eexists. split; [reflexivity|]. split; [reflexivity|].
  cbn [Queries.stats filter]. rewrite I1, I2. reflexivity.
Qed.

Lemma X16_seeding_an_empty_database_witness :
  Seed.seedDatabase 1700000000000 1700000000000 1700000000000 empty_database
  = (Resolved tt, seeded 1700000000).
Proof.
  destruct (X16_seeding_an_empty_database
              empty_database 1700000000000 1700000000000 1700000000000)
    as [u0 [u1 [n1 [n2 [n3 [d' [H _]]]]]]].
  - reflexivity.
  - rewrite H. vm_compute in H. injection H as <-. reflexivity.
Defined.

(** X17.  [seedDatabase] always resolves, whatever the database and the
    clock.  When a user is already stored it stores nothing.  Seeding a
    second time, at any later time, stores nothing more.  And a database
    that satisfies its constraints satisfies them after seeding. *)
Theorem X17_seeding_is_idempotent :
  forall (d : Database) (t1 t2 t3 s1 s2 s3 : Z),
    exists d',
      Seed.seedDatabase t1 t2 t3 d = (Resolved tt, d')
      /\ (users d <> [] -> d' = d)
      /\ Seed.seedDatabase s1 s2 s3 d' = (Resolved tt, d')
      /\ (consistent d -> consistent d').
Proof.
  intros d t1 t2 t3 s1 s2 s3.
  destruct (users d) as [|u us] eqn:E.
  - destruct (seed_fresh d t1 t2 t3 E)
      as [u0 [u1 [n1 [n2 [n3 [d' [Hseed [Hus H]]]]]]]].
    exists d'. split; [exact Hseed|]. split; [congruence|]. split.
    + apply seed_skipped. rewrite Hus. discriminate.
    + do 15 (destruct H as [_ H]). exact H.
  - assert (Hne : users d <> []) by (rewrite E; discriminate).
    exists d. split; [now apply seed_skipped|]. split; [reflexivity|].
    split; [now apply seed_skipped|]. trivial.
Qed.

Lemma X17_seeding_is_idempotent_witness :
  Seed.seedDatabase 1 2 3 (seeded 1700000000)
  = (Resolved tt, seeded 1700000000).
Proof.
  destruct (X17_seeding_is_idempotent (seeded 1700000000) 1 2 3 4 5 6)
    as [d' [H1 [H2 _]]].
  rewrite H1. f_equal. apply H2. discriminate.
Defined.

(* ------------------------------------------------------------------ *)
(** ** One operation after another *)

(** X18.  After [deleteUserNotes userId] the user is still there and has no
    notes: [getUserById] resolves with what it resolved with before,
    [getNotesByUserId] resolves with the empty sequence, and
    [getUserWithNotes] of a stored user reports zero notes, zero of them
    important. *)
Theorem X18_user_outlives_their_notes :
  forall (d : Database) (u : User.t),
    In u (users d) ->
    let d' := snd (Crud.deleteUserNotes (User.id u) d) in
    fst (Crud.getUserById (User.id u) d')
    = fst (Crud.getUserById (User.id u) d)
    /\ fst (Crud.getNotesByUserId (User.id u) d') = Resolved []
    /\ exists r,
         fst (Queries.getUserWithNotes (User.id u) d') = Resolved (Some r)
         /\ Queries.uwn_notes r = []
         /\ Queries.stats r
            = {| Queries.totalNotes := 0; Queries.importantNotes := 0 |}.
Proof.
  intros d u Hu d'. subst d'.
  unfold Crud.deleteUserNotes, delete_notes_run. cbn [snd].
  assert (Hgone : filter (fun n => Note.userId n =? User.id u)
                         (notes (without_notes
                                   (fun n => Note.userId n =? User.id u) d))
                  = []).
  { cbn [notes without_notes]. apply filter_none. intros n Hn.
    apply filter_In in Hn. destruct Hn as [_ Hn].
    now apply Bool.negb_true_iff. }
  split; [reflexivity|]. split.
  - unfold Crud.getNotesByUserId, select_notes. cbn [fst]. now rewrite Hgone.
  - unfold Queries.getUserWithNotes, bind, select_users, select_notes, ret.
    cbv beta iota. cbn [users without_notes].
    destruct (Crud.first (filter (fun u0 => User.id u0 =? User.id u) (users d)))
      as [user0|] eqn:Hfirst.
    + cbv beta iota. rewrite Hgone. eexists. repeat split.
    + exfalso.
      assert (H : In u (filter (fun u0 => User.id u0 =? User.id u) (users d))).
      { apply filter_In. split; [assumption|]. apply Z.eqb_refl. }
      destruct (filter (fun u0 => User.id u0 =? User.id u) (users d));
        [exact H|discriminate].
Qed.

Lemma X18_user_outlives_their_notes_witness :
  fst (Crud.getNotesByUserId 1
         (snd (Crud.deleteUserNotes 1 (seeded 1700000000))))
  = Resolved [].
Proof.
  apply (X18_user_outlives_their_notes (seeded 1700000000) johndoe).
  simpl. left. reflexivity.
Defined.



